(** * Multimodal-Toolkit: the data preparation pipeline of [load_data.py]

    A shallow embedding of [src/load_data.py] and the properties of its
    specification.

    The Python module is a driver over pandas and scikit-learn.  The part of
    pandas it relies on is modelled in [Module pd] (pandas 2.x behaviour, on
    frames whose column names are pairwise distinct, as [read_csv] produces
    them); scikit-learn's transformers, the tokenizer, NumPy's number
    formatting and the [CategoricalFeatures] class of [encode_features.py]
    are collaborators and enter as Section variables.

    Conventions of the embedding:
    - a raised Python exception is a value [Raise e] of the error monad [Exc];
    - numbers are rationals ([Q]); float rounding is not modelled;
    - an object mutated in place (the table written by [load_num_feats], the
      transformer on which [fit] and [transform] are called) is threaded
      through: the function returns the object as it is after the call. *)

From Stdlib Require Import String Ascii Bool Arith ZArith QArith Lia List.
Import ListNotations.
Local Open Scope string_scope.
Local Open Scope list_scope.
Local Open Scope nat_scope.

Set Implicit Arguments.

(** ** Exceptions and the error monad *)

Inductive Exn : Type :=
| AssertionError                 (* [assert] of [convert_to_func] *)
| ValueError                     (* [raise ValueError] of [load_data_from_folder] *)
| IndexError                     (* [texts_list[0]] on an empty list *)
| TypeError                      (* iterating [None] *)
| KeyError                       (* a label or column that is not there *)
| LibraryError (origin : string) (* raised inside pandas or scikit-learn *).

Inductive Exc (A : Type) : Type :=
| Ok (a : A)
| Raise (e : Exn).

Arguments Ok {A} a.
Arguments Raise {A} e.

Definition bind {A B : Type} (m : Exc A) (k : A -> Exc B) : Exc B :=
  match m with
  | Ok a => k a
  | Raise e => Raise e
  end.

Notation "x <- m ;; k" := (bind m (fun x => k))
  (at level 61, m at next level, right associativity).
Notation "' pat <- m ;; k" := (bind m (fun x => match x with pat => k end))
  (at level 61, pat pattern, m at next level, right associativity).

Definition is_ok {A : Type} (m : Exc A) : bool :=
  match m with Ok _ => true | Raise _ => false end.

(** [mapM]: a comprehension whose body may raise. *)
Fixpoint mapM {A B : Type} (f : A -> Exc B) (l : list A) : Exc (list B) :=
  match l with
  | [] => Ok []
  | a :: l' => b <- f a ;; bs <- mapM f l' ;; Ok (b :: bs)
  end.

(** ** Data model *)

(** A cell of a table: missing ([NaN]), a number, a string, a boolean. *)
Inductive Cell : Type :=
| CNaN
| CNum (q : Q)
| CStr (s : string)
| CBool (b : bool).

(** A row label (an entry of the index column, [index_col=0]). *)
Inductive Label : Type :=
| LInt (z : Z)
| LStr (s : string).

Definition label_eqb (a b : Label) : bool :=
  match a, b with
  | LInt x, LInt y => Z.eqb x y
  | LStr x, LStr y => String.eqb x y
  | _, _ => false
  end.

(** A table: named columns, and rows that carry their index label. *)
Record DataFrame : Type := mkDataFrame {
  columns : list string;
  rows : list (Label * list Cell)
}.

Definition index (df : DataFrame) : list Label := map fst (rows df).

(** A two-dimensional array ([.values]), row by row. *)
Definition Matrix : Type := list (list Cell).

Definition mem (x : string) (l : list string) : bool :=
  existsb (String.eqb x) l.

Definition mem_label (x : Label) (l : list Label) : bool :=
  existsb (label_eqb x) l.

Fixpoint nodupb (l : list Label) : bool :=
  match l with
  | [] => true
  | x :: l' => negb (mem_label x l') && nodupb l'
  end.

Fixpoint list_eqb {A : Type} (eqb : A -> A -> bool) (l1 l2 : list A) : bool :=
  match l1, l2 with
  | [], [] => true
  | a :: l1', b :: l2' => eqb a b && list_eqb eqb l1' l2'
  | _, _ => false
  end.

(** The cell of a row under a column name (the first column of that name);
    a name that is not there reads as missing. *)
Fixpoint lookup_col (cols : list string) (row : list Cell) (c : string)
  : option Cell :=
  match cols, row with
  | k :: cols', x :: row' =>
      if String.eqb c k then Some x else lookup_col cols' row' c
  | _, _ => None
  end.

Definition cell (cols : list string) (row : list Cell) (c : string) : Cell :=
  match lookup_col cols row c with
  | Some x => x
  | None => CNaN
  end.

(** Cell of table [df] at row position [i] and column [c]. *)
Definition cell_at (df : DataFrame) (i : nat) (c : string) : Cell :=
  match nth_error (rows df) i with
  | Some (_, r) => cell (columns df) r c
  | None => CNaN
  end.

Definition is_nan (x : Cell) : bool :=
  match x with CNaN => true | _ => false end.

Definition is_str (x : Cell) : bool :=
  match x with CStr _ => true | _ => false end.

(** The numeric value of a cell, as NumPy converts it ([True] is 1). *)
Definition num_key (x : Cell) : option Q :=
  match x with
  | CNum q => Some q
  | CBool b => Some (if b then 1%Q else 0%Q)
  | _ => None
  end.

(** Python's [==] on cell values ([nan] is never a category). *)
Definition cell_eqb (x y : Cell) : bool :=
  match x, y with
  | CStr s, CStr t => String.eqb s t
  | CNaN, _ | _, CNaN => false
  | _, _ =>
      match num_key x, num_key y with
      | Some p, Some q => Qeq_bool p q
      | _, _ => false
      end
  end.

(** The order in which pandas sorts the categories of a column: numbers by
    value, before strings in lexicographic order. *)
Definition cell_leb (x y : Cell) : bool :=
  match num_key x, num_key y with
  | Some p, Some q => Qle_bool p q
  | Some _, None => true
  | None, Some _ => false
  | None, None =>
      match x, y with
      | CStr s, CStr t => String.leb s t
      | _, _ => true
      end
  end.

Section Sorting.
Variable A : Type.
Variable leb : A -> A -> bool.

Fixpoint insert_sorted (x : A) (l : list A) : list A :=
  match l with
  | [] => [x]
  | y :: l' => if leb x y then x :: l else y :: insert_sorted x l'
  end.

Definition sort (l : list A) : list A :=
  fold_right insert_sorted [] l.
End Sorting.

Fixpoint dedup (l : list Cell) : list Cell :=
  match l with
  | [] => []
  | x :: l' => x :: filter (fun y => negb (cell_eqb x y)) (dedup l')
  end.

(** The median of the numbers of a column, missing values skipped; [None]
    when the column has no number. *)
Definition median_Q (l : list Q) : option Q :=
  let s := sort Qle_bool l in
  let n := length s in
  if Nat.eqb n 0 then None
  else if Nat.odd n then nth_error s (n / 2)
  else
    match nth_error s (n / 2 - 1), nth_error s (n / 2) with
    | Some a, Some b => Some (Qred ((a + b) / 2))
    | _, _ => None
    end.

(** ** The fragment of pandas used by the pipeline *)

Module pd.

(** [df[:n]] *)
Definition head (n : nat) (df : DataFrame) : DataFrame :=
  mkDataFrame (columns df) (firstn n (rows df)).

(** The values of column [c], top to bottom. *)
Definition col_values (df : DataFrame) (c : string) : list Cell :=
  map (fun r => cell (columns df) (snd r) c) (rows df).

(** [df[cols]] for a list of names: [KeyError] when a name is missing. *)
Definition getitem_cols (df : DataFrame) (cols : list string) : Exc DataFrame :=
  if forallb (fun c => mem c (columns df)) cols then
    Ok (mkDataFrame cols
          (map (fun r => (fst r, map (cell (columns df) (snd r)) cols)) (rows df)))
  else Raise KeyError.

(** [df[c].values] for one name. *)
Definition getitem_col (df : DataFrame) (c : string) : Exc (list Cell) :=
  if mem c (columns df) then Ok (col_values df c) else Raise KeyError.

(** [df.values] *)
Definition values (df : DataFrame) : Matrix := map snd (rows df).

(** The median of one column, as a cell: a string in the column makes
    pandas raise; a column with no number has median [nan]. *)
Definition median_cells (l : list Cell) : Exc Cell :=
  if existsb is_str l then Raise (LibraryError "DataFrame.median")
  else
    match median_Q (flat_map (fun x => match num_key x with
                                       | Some q => [q]
                                       | None => []
                                       end) l) with
    | Some m => Ok (CNum m)
    | None => Ok CNaN
    end.

(** [df.median()]: a Series, column name to median. *)
Definition median (df : DataFrame) : Exc (list (string * Cell)) :=
  mapM (fun c => m <- median_cells (col_values df c) ;; Ok (c, m)) (columns df).

Fixpoint series_get (s : list (string * Cell)) (c : string) : Cell :=
  match s with
  | [] => CNaN
  | (k, v) :: s' => if String.eqb c k then v else series_get s' c
  end.

Definition fill (v : Cell) (x : Cell) : Cell :=
  if is_nan x then v else x.

(** [df.fillna(series)]: a missing cell takes the Series' value of its
    column. *)
Definition fillna (df : DataFrame) (s : list (string * Cell)) : DataFrame :=
  mkDataFrame (columns df)
    (map (fun r => (fst r,
                    map (fun c => fill (series_get s c) (cell (columns df) (snd r) c))
                        (columns df)))
         (rows df)).

(** [df[keys] = value], for [value] a frame over the columns [keys] and the
    rows of [df]: the named columns are overwritten in place, the other
    columns and the index stay. *)
Definition setitem_cols (df : DataFrame) (keys : list string) (value : DataFrame)
  : DataFrame :=
  mkDataFrame (columns df)
    (map (fun rv =>
            let '(r, v) := rv in
            (fst r,
             map (fun c => if mem c keys
                           then cell (columns value) (snd v) c
                           else cell (columns df) (snd r) c)
                 (columns df)))
         (combine (rows df) (rows value))).

(** Column union of [pd.concat], in order of first appearance. *)
Definition union_columns (dfs : list DataFrame) : list string :=
  fold_left (fun acc df => acc ++ filter (fun c => negb (mem c acc)) (columns df))
            dfs [].

Definition reindex_columns (cols : list string) (df : DataFrame)
  : list (Label * list Cell) :=
  map (fun r => (fst r, map (cell (columns df) (snd r)) cols)) (rows df).

(** [pd.concat(dfs, axis=0)]: rows one after the other, labels kept as they
    are; frames of one schema are stacked as they stand, otherwise the
    columns are united and the gaps are missing. *)
Definition concat_rows (dfs : list DataFrame) : DataFrame :=
  match dfs with
  | [] => mkDataFrame [] []
  | d :: _ =>
      if forallb (fun d' => list_eqb String.eqb (columns d) (columns d')) dfs
      then mkDataFrame (columns d) (flat_map rows dfs)
      else let u := union_columns dfs in
           mkDataFrame u (flat_map (reindex_columns u) dfs)
  end.

(** The rows of [df] under label [l], in table order. *)
Definition rows_at (df : DataFrame) (l : Label) : list (Label * list Cell) :=
  filter (fun r => label_eqb (fst r) l) (rows df).

(** [df.loc[labels]]: for every requested label, in request order, all the
    rows that carry it; [KeyError] for a label no row carries. *)
Definition loc (df : DataFrame) (labels : list Label) : Exc DataFrame :=
  rs <- mapM (fun l => match rows_at df l with
                       | [] => Raise KeyError
                       | found => Ok found
                       end) labels ;;
  Ok (mkDataFrame (columns df) (List.concat rs)).

(** [pd.DataFrame(vals, columns=names)]: a fresh [RangeIndex]. *)
Definition DataFrame_of (vals : Matrix) (names : list string) : Exc DataFrame :=
  if forallb (fun r => Nat.eqb (length r) (length names)) vals then
    Ok (mkDataFrame names
          (combine (map (fun i => LInt (Z.of_nat i)) (seq 0 (length vals))) vals))
  else Raise (LibraryError "DataFrame").

(** A row read column by column. *)
Definition row_cells (df : DataFrame) (r : Label * list Cell) : list Cell :=
  map (cell (columns df) (snd r)) (columns df).

Definition row_or_nan (df : DataFrame) (l : Label) : list Cell :=
  match rows_at df l with
  | r :: _ => row_cells df r
  | [] => map (fun _ => CNaN) (columns df)
  end.

(** [pd.concat([a, b], axis=1)]: columns side by side.  Equal indexes are
    paired by position; otherwise the rows are joined on their labels
    (outer join, each index must be free of duplicates). *)
Definition concat_cols (a b : DataFrame) : Exc DataFrame :=
  if list_eqb label_eqb (index a) (index b) then
    Ok (mkDataFrame (columns a ++ columns b)
          (map (fun rv => (fst (fst rv), row_cells a (fst rv) ++ row_cells b (snd rv)))
               (combine (rows a) (rows b))))
  else if nodupb (index a) && nodupb (index b) then
    let labels := index a ++ filter (fun l => negb (mem_label l (index a))) (index b) in
    Ok (mkDataFrame (columns a ++ columns b)
          (map (fun l => (l, row_or_nan a l ++ row_or_nan b l)) labels))
  else Raise (LibraryError "concat").

End pd.


(** ** Column specifications

    The Python value passed as [text_cols], [categorical_cols] or
    [numerical_cols]. *)

Definition ColFunc : Type := DataFrame -> string -> bool.

Inductive ColSpec : Type :=
| SpecNone
| SpecFunction (f : ColFunc)   (* [def] or [lambda]: a [types.FunctionType] *)
| SpecCallable (f : ColFunc)   (* another callable: [functools.partial], a
                                  bound method, an object with [__call__] *)
| SpecList (l : list string)   (* [type(arg) is list] *)
| SpecSet (l : list string)    (* [type(arg) is set], given by its elements *)
| SpecOther.                   (* any other object: tuple, str, dict, int *)

(** ** [pd.get_dummies(data, columns=..., dummy_na=True)] *)

(** The categories of column [c]: its distinct values that are not missing,
    sorted. *)
Definition levels (df : DataFrame) (c : string) : list Cell :=
  sort cell_leb (dedup (filter (fun x => negb (is_nan x)) (pd.col_values df c))).

Definition dummy_names (str_of : Cell -> string) (df : DataFrame) (c : string)
  : list string :=
  map (fun v => (c ++ "_" ++ str_of v)%string) (levels df c) ++ [(c ++ "_nan")%string].

Definition dummy_cells (df : DataFrame) (c : string) (x : Cell) : list Cell :=
  map (fun v => CBool (cell_eqb x v)) (levels df c) ++ [CBool (is_nan x)].

(** The columns that are not encoded come first, in their order; then, for
    every encoded column, one indicator per category and the indicator of the
    missing value.  Rows and index are kept. *)
Definition encode_dummies (str_of : Cell -> string) (data : DataFrame)
    (cols : list string) : Exc DataFrame :=
  if forallb (fun c => mem c (columns data)) cols then
    let kept := filter (fun c => negb (mem c cols)) (columns data) in
    Ok (mkDataFrame
          (kept ++ flat_map (dummy_names str_of data) cols)
          (map (fun r =>
                  (fst r,
                   map (cell (columns data) (snd r)) kept ++
                   flat_map (fun c => dummy_cells data c (cell (columns data) (snd r) c))
                            cols))
               (rows data)))
  else Raise KeyError.

(** [columns=None] encodes the columns of object dtype (those that hold a
    string); a list names the columns; anything else is refused. *)
Definition get_dummies (str_of : Cell -> string) (data : DataFrame)
    (cols : ColSpec) : Exc DataFrame :=
  match cols with
  | SpecNone =>
      encode_dummies str_of data
        (filter (fun c => existsb is_str (pd.col_values data c)) (columns data))
  | SpecList l => encode_dummies str_of data l
  | _ => Raise (LibraryError "get_dummies")
  end.

(** ** The dataset container ([TorchTextDataset]) *)

Record TorchTextDataset (TokOut : Type) : Type := mkTorchTextDataset {
  ds_df : DataFrame;
  ds_encodings : TokOut;
  ds_cat_feats : option Matrix;
  ds_numerical_feats : option Matrix;
  ds_labels : list Cell;
  ds_label_list : option (list string)
}.

(** ** The functions of [load_data.py] *)

Section Pipeline.

(** NumPy's rendering of a number as text. *)
Variable str_of_num : Q -> string.

(** The tokenizer: [tokenizer(texts, padding=True, truncation=True,
    max_length=...)]. *)
Variable TokOut : Type.
Variable tokenizer : list string -> option nat -> TokOut.

(** scikit-learn's transformers.  A transformer is an object: [fit] and
    [transform] return it as it is after the call. *)
Variable Transformer : Type.
Variable PowerTransformer : string -> Transformer.
Variable QuantileTransformer : string -> Transformer.
Variable fit : Transformer -> Matrix -> Exc Transformer.
Variable transform : Transformer -> Matrix -> Exc (Transformer * Matrix).

(** [CategoricalFeatures(df, cols, encode_type).fit_transform()] of
    [encode_features.py]: the encoded values and the [feat_names] attribute.
    The class is taken to read the table it is given, not to write it. *)
Variable CategoricalFeatures : DataFrame -> ColSpec -> option string ->
                               Exc (Matrix * list string).

(** [astype('str')] on a value. *)
Definition astype_str (x : Cell) : string :=
  match x with
  | CNaN => "nan"
  | CNum q => str_of_num q
  | CStr s => s
  | CBool true => "True"
  | CBool false => "False"
  end.

Definition get_matching_cols (df : DataFrame) (col_match_func : ColFunc)
  : list string :=
  filter (col_match_func df) (columns df).

Definition convert_to_func (arg : ColSpec) : Exc ColFunc :=
  match arg with
  | SpecNone => Ok (fun _ _ => false)
  | SpecFunction f => Ok f
  | SpecList l | SpecSet l => Ok (fun _ x => mem x l)
  | SpecCallable _ | SpecOther => Raise AssertionError
  end.

Fixpoint agg_text_columns_func (empty_row_values : list string)
    (replace_text : option string) (texts : list Cell) : list string :=
  match texts with
  | [] => []
  | x :: rest =>
      let text := astype_str x in
      let processed := agg_text_columns_func empty_row_values replace_text rest in
      if negb (mem text empty_row_values) then text :: processed
      else match replace_text with
           | Some r => r :: processed
           | None => processed
           end
  end.

Definition load_cat_feats (df : DataFrame) (cat_bool_func : ColFunc)
    (encode_type : option string) : Exc (option Matrix) :=
  let cat_cols := get_matching_cols df cat_bool_func in
  if Nat.eqb (length cat_cols) 0 then Ok None
  else
    r <- CategoricalFeatures df (SpecList cat_cols) encode_type ;;
    Ok (Some (fst r)).

(** Returns the table as the assignment [df[num_cols] = ...] leaves it, and
    the feature matrix. *)
Definition load_num_feats (df : DataFrame) (num_bool_func : ColFunc)
  : Exc (DataFrame * option Matrix) :=
  let num_cols := get_matching_cols df num_bool_func in
  sub <- pd.getitem_cols df num_cols ;;
  med <- pd.median sub ;;
  let df := pd.setitem_cols df num_cols (pd.fillna sub med) in
  if Nat.eqb (length num_cols) 0 then Ok (df, None)
  else
    sub' <- pd.getitem_cols df num_cols ;;
    Ok (df, Some (pd.values sub')).

Definition load_cat_and_num_feats (df : DataFrame) (cat_bool_func num_bool_func : ColFunc)
    (enocde_type : option string)
  : Exc (DataFrame * option Matrix * option Matrix) :=
  cat_feats <- load_cat_feats df cat_bool_func enocde_type ;;
  '(df, num_feats) <- load_num_feats df num_bool_func ;;
  Ok (df, cat_feats, num_feats).

Definition normalize_numerical_feats (numerical_feats : option Matrix)
    (transformer : option Transformer)
  : Exc (option Transformer * option Matrix) :=
  match numerical_feats, transformer with
  | Some m, Some t =>
      '(t', m') <- transform t m ;;
      Ok (Some t', Some m')
  | _, _ => Ok (transformer, numerical_feats)
  end.

(** [df.agg(func, axis=1).tolist()]: [func] on every row; a table with rows
    and no column is refused by pandas. *)
Definition agg_rows (func : list Cell -> list string) (df : DataFrame)
  : Exc (list (list string)) :=
  match rows df, columns df with
  | [], _ => Ok []
  | _ :: _, [] => Raise (LibraryError "agg")
  | rs, _ => Ok (map (fun r => func (snd r)) rs)
  end.

(** [f' {sep} '.join(text)] *)
Definition join_text (sep_text_token_str : string) (text : list string) : string :=
  String.concat (" " ++ sep_text_token_str ++ " ")%string text.

Definition load_data (data_df : DataFrame)
    (text_cols : ColSpec)
    (label_col : string)
    (label_list : option (list string))
    (categorical_cols numerical_cols : ColSpec)
    (sep_text_token_str : string)
    (categorical_encode_type : option string)
    (numerical_transformer : option Transformer)
    (empty_text_values : option (list string))
    (replace_empty_text : option string)
    (max_token_length : option nat)
    (debug : bool)
  : Exc (option Transformer * TorchTextDataset TokOut) :=
  let data_df := if debug then pd.head 50 data_df else data_df in
  let empty_text_values :=
    match empty_text_values with
    | None => ["nan"; "None"]
    | Some l => l
    end in
  text_cols_func <- convert_to_func text_cols ;;
  categorical_cols_func <- convert_to_func categorical_cols ;;
  numerical_cols_func <- convert_to_func numerical_cols ;;
  '(data_df, categorical_feats, numerical_feats) <-
     load_cat_and_num_feats data_df categorical_cols_func numerical_cols_func
                            categorical_encode_type ;;
  '(numerical_transformer, numerical_feats) <-
     normalize_numerical_feats numerical_feats numerical_transformer ;;
  let agg_func := agg_text_columns_func empty_text_values replace_empty_text in
  let texts_cols := get_matching_cols data_df text_cols_func in
  sub <- pd.getitem_cols data_df texts_cols ;;
  texts_list <- agg_rows agg_func sub ;;
  let texts_list := map (join_text sep_text_token_str) texts_list in
  _ <- match texts_list with
       | [] => Raise IndexError
       | example :: _ => Ok example
       end ;;
  let hf_model_text_input := tokenizer texts_list max_token_length in
  labels <- pd.getitem_col data_df label_col ;;
  Ok (numerical_transformer,
      mkTorchTextDataset data_df hf_model_text_input categorical_feats
                         numerical_feats labels label_list).

(** Lines 44-45: the names of the encoded columns, found again in the columns
    of the encoded table by their prefix.  (Reached with [None] or a list
    only: [get_dummies] refuses the other values.) *)
Definition ohe_columns (data_df : DataFrame) (categorical_cols : ColSpec)
  : Exc (list string) :=
  match categorical_cols with
  | SpecList olds | SpecSet olds =>
      Ok (flat_map
            (fun col =>
               flat_map (fun old_col =>
                           if String.prefix old_col col &&
                              Nat.ltb (String.length old_col) (String.length col)
                           then [col] else [])
                        olds)
            (columns data_df))
  | _ =>
      match columns data_df with
      | [] => Ok []
      | _ :: _ => Raise TypeError
      end
  end.

(** Lines 39-40: the splits that are present, stacked. *)
Definition union_table (train_df : DataFrame) (val_df : option DataFrame)
    (test_df : DataFrame) : DataFrame :=
  let dfs := train_df ::
             match val_df with Some v => [v] | None => [] end ++ [test_df] in
  pd.concat_rows dfs.

Definition is_encode_type (t : option string) (name : string) : bool :=
  match t with
  | Some s => String.eqb s name
  | None => false
  end.

(** Lines 38-58 of [load_data_from_folder]: the categorical encoding is
    fitted on the union of the splits, which are then cut out again by their
    index.  Returns the three tables, [categorical_cols] and
    [categorical_encode_type] as they are after the block. *)
Definition union_fit (train_df : DataFrame) (val_df : option DataFrame)
    (test_df : DataFrame) (categorical_cols : ColSpec)
    (categorical_encode_type : option string)
  : Exc (DataFrame * option DataFrame * DataFrame * ColSpec * option string) :=
  if is_encode_type categorical_encode_type "ohe" ||
     is_encode_type categorical_encode_type "binary" then
    let data_df := union_table train_df val_df test_df in
    '(data_df, categorical_cols) <-
      (if is_encode_type categorical_encode_type "ohe" then
         data_df <- get_dummies astype_str data_df categorical_cols ;;
         cols <- ohe_columns data_df categorical_cols ;;
         Ok (data_df, SpecList cols)
       else
         '(vals, feat_names) <-
            CategoricalFeatures data_df categorical_cols (Some "binary") ;;
         cat_df <- pd.DataFrame_of vals feat_names ;;
         data_df <- pd.concat_cols data_df cat_df ;;
         Ok (data_df, SpecList feat_names)) ;;
    train_df' <- pd.loc data_df (index train_df) ;;
    val_df' <- match val_df with
               | Some v => v' <- pd.loc data_df (index v) ;; Ok (Some v')
               | None => Ok None
               end ;;
    test_df' <- pd.loc data_df (index test_df) ;;
    Ok (train_df', val_df', test_df', categorical_cols, None)
  else Ok (train_df, val_df, test_df, categorical_cols, categorical_encode_type).

(** Lines 60-73: the numerical transformer, fitted on the numerical columns
    of the training table.  Returns the training table as [load_num_feats]
    leaves it, and the transformer. *)
Definition fit_numerical (train_df : DataFrame) (numerical_cols : ColSpec)
    (numerical_transformer_method : string)
  : Exc (DataFrame * option Transformer) :=
  if negb (String.eqb numerical_transformer_method "none") then
    numerical_transformer <-
      (if String.eqb numerical_transformer_method "yeo_johnson"
       then Ok (PowerTransformer "yeo-johnson")
       else if String.eqb numerical_transformer_method "box_cox"
       then Ok (PowerTransformer "box-cox")
       else if String.eqb numerical_transformer_method "quantile_normal"
       then Ok (QuantileTransformer "normal")
       else Raise ValueError) ;;
    num_bool_func <- convert_to_func numerical_cols ;;
    '(train_df, num_feats) <- load_num_feats train_df num_bool_func ;;
    fitted <- match num_feats with
              | Some m => fit numerical_transformer m
              | None => Raise (LibraryError "fit")
              end ;;
    Ok (train_df, Some fitted)
  else Ok (train_df, None).

(** [load_data_from_folder], from the tables read from [train.csv],
    [val.csv] (when it exists) and [test.csv].  Returns the transformer as it
    is at the end of the call, and the three datasets. *)
Definition load_data_from_folder (train_df : DataFrame) (val_df : option DataFrame)
    (test_df : DataFrame)
    (text_cols : ColSpec)
    (label_col : string)
    (label_list : option (list string))
    (categorical_cols numerical_cols : ColSpec)
    (sep_text_token_str : string)
    (categorical_encode_type : option string)
    (numerical_transformer_method : string)
    (empty_text_values : option (list string))
    (replace_empty_text : option string)
    (max_token_length : option nat)
    (debug : bool)
  : Exc (option Transformer *
         (TorchTextDataset TokOut * option (TorchTextDataset TokOut) *
          TorchTextDataset TokOut)) :=
  '(train_df, val_df, test_df, categorical_cols, categorical_encode_type) <-
     union_fit train_df val_df test_df categorical_cols categorical_encode_type ;;
  '(train_df, numerical_transformer) <-
     fit_numerical train_df numerical_cols numerical_transformer_method ;;
  let run df transformer :=
    load_data df text_cols label_col label_list categorical_cols numerical_cols
              sep_text_token_str categorical_encode_type transformer
              empty_text_values replace_empty_text max_token_length debug in
  '(numerical_transformer, train_dataset) <- run train_df numerical_transformer ;;
  '(numerical_transformer, test_dataset) <- run test_df numerical_transformer ;;
  '(numerical_transformer, val_dataset) <-
     match val_df with
     | Some v =>
         '(t, d) <- run v numerical_transformer ;;
         Ok (t, Some d)
     | None => Ok (numerical_transformer, None)
     end ;;
  Ok (numerical_transformer, (train_dataset, val_dataset, test_dataset)).

End Pipeline.

(** ** Definitions used to state the properties *)

(** The median of column [c] of a table, as a cell ([nan] when the column has
    no number). *)
Definition column_median (df : DataFrame) (c : string) : Cell :=
  match pd.median_cells (pd.col_values df c) with
  | Ok m => m
  | Raise _ => CNaN
  end.

(** The specs that [convert_to_func] accepts. *)
Definition accepted_spec (arg : ColSpec) : bool :=
  match arg with
  | SpecCallable _ | SpecOther => false
  | _ => true
  end.

(** Row [r'] of a table over [cols'] carries the label of row [r] of a table
    over [cols], and its value in every column of [cols] that was not
    replaced. *)
Definition rows_agree (replaced : string -> bool) (cols cols' : list string)
    (r r' : Label * list Cell) : Prop :=
  fst r' = fst r /\
  forall c, In c cols -> replaced c = false ->
            cell cols' (snd r') c = cell cols (snd r) c.

(** A split comes back from the union: same labels in the same order, and
    the same value in every column that was not replaced by its encoding. *)
Definition same_rows (replaced : string -> bool) (orig new : DataFrame) : Prop :=
  index new = index orig /\
  forall i c, In c (columns orig) -> replaced c = false ->
              cell_at new i c = cell_at orig i c.

(** The columns that one-hot encoding removes. *)
Definition replaced_by (categorical_encode_type : option string)
    (categorical_cols : ColSpec) (c : string) : bool :=
  is_encode_type categorical_encode_type "ohe" &&
  match categorical_cols with
  | SpecList l => mem c l
  | _ => false
  end.

(** Table [df'] is table [df] with the missing cells of the columns selected
    by [nf] filled with the median of their column in [df]; the index, the
    columns and every other cell are those of [df]. *)
Definition imputed_from (df df' : DataFrame) (nf : ColFunc) : Prop :=
  columns df' = columns df /\
  index df' = index df /\
  forall i c, i < length (rows df) ->
    cell_at df' i c =
    if mem c (get_matching_cols df nf)
    then pd.fill (column_median df c) (cell_at df i c)
    else cell_at df i c.

(** Table [d'] carries the labels of table [d] in the order of [d], each at
    least once, and has at least as many rows. *)
Definition labels_kept (d d' : DataFrame) : Prop :=
  exists k : Label -> nat,
    (forall l, In l (index d) -> 1 <= k l) /\
    index d' = flat_map (fun l => repeat l (k l)) (index d) /\
    length (rows d) <= length (rows d').

(** ** Example collaborators and tables *)

Definition demo_str_of_num (q : Q) : string := "num".

(** A tokenizer that keeps the texts it is given. *)
Definition demo_tokenizer (texts : list string) (max_length : option nat)
  : list string := texts.

(** A transformer that records the sample it was fitted on, and whose
    [transform] is the identity. *)
Definition demo_new (method : string) : Matrix := [].

Definition demo_fit (t : Matrix) (m : Matrix) : Exc Matrix := Ok m.

Definition demo_transform (t : Matrix) (m : Matrix) : Exc (Matrix * Matrix) :=
  Ok (t, m).

(** Modelled from the spec: the pass-through scheme of [CategoricalFeatures]
    ([encode_features.py] is not among the sources): "the raw columns are
    passed through unmodified", "feature_names equals the input columns". *)
Definition passthrough_features (df : DataFrame) (cols : ColSpec)
    (encode_type : option string) : Exc (Matrix * list string) :=
  match cols with
  | SpecList l => sub <- pd.getitem_cols df l ;; Ok (pd.values sub, l)
  | _ => Raise (LibraryError "CategoricalFeatures")
  end.

Definition demo_columns : list string := ["text"; "cat"; "num"; "y"].

Definition demo_train : DataFrame :=
  mkDataFrame demo_columns
    [(LInt 0, [CStr "good"; CStr "x"; CNum 1; CNum 0]);
     (LInt 1, [CStr "bad"; CStr "y"; CNaN; CNum 1]);
     (LInt 2, [CNaN; CNaN; CNum 4; CNum 1])].

Definition demo_val : DataFrame :=
  mkDataFrame demo_columns
    [(LInt 3, [CStr "fine"; CStr "x"; CNum 2; CNum 0])].

Definition demo_test : DataFrame :=
  mkDataFrame demo_columns
    [(LInt 4, [CStr "poor"; CStr "z"; CNum 7; CNum 0]);
     (LInt 5, [CStr "nice"; CStr "x"; CNaN; CNum 1])].

(** A test table whose file numbers its rows from 0 again. *)
Definition demo_test_from_0 : DataFrame :=
  mkDataFrame demo_columns
    [(LInt 0, [CStr "poor"; CStr "z"; CNum 7; CNum 0])].

(** A training table of 51 rows, numbered from 10; the category of the last
    row occurs in no other row. *)
Definition demo_train_51 : DataFrame :=
  mkDataFrame demo_columns
    (map (fun i => (LInt (Z.of_nat (10 + i)),
                    [CStr "good"; CStr (if Nat.eqb i 50 then "w" else "x");
                     CNum (inject_Z (Z.of_nat i)); CNum 0]))
         (seq 0 51)).

Definition demo_empty : DataFrame := mkDataFrame demo_columns [].

(** The pipeline with the example collaborators. *)
Abbreviation demo_load_data :=
  (load_data demo_str_of_num demo_tokenizer demo_transform passthrough_features).

Abbreviation demo_union_fit :=
  (union_fit demo_str_of_num passthrough_features).

Abbreviation demo_fit_numerical :=
  (fit_numerical demo_new demo_new demo_fit).

Abbreviation demo_load_data_from_folder :=
  (load_data_from_folder demo_str_of_num demo_tokenizer demo_new demo_new
                         demo_fit demo_transform passthrough_features).

(** * Properties *)

(** ** The error monad *)

Lemma bind_ok (A B : Type) (m : Exc A) (k : A -> Exc B) (b : B) :
  bind m k = Ok b -> exists a, m = Ok a /\ k a = Ok b.
Proof.
  destruct m as [a|e]; simpl; intros H; [eauto | discriminate].
Qed.

Ltac inv_bind H :=
  let a := fresh "a" in
  let Ha := fresh "Ha" in
  apply bind_ok in H; destruct H as [a [Ha H]].

Lemma mapM_ok_length (A B : Type) (f : A -> Exc B) (l : list A) (bs : list B) :
  mapM f l = Ok bs -> length bs = length l.
Proof.
  revert bs; induction l as [|a l IH]; simpl; intros bs H.
  - now inversion H.
  - inv_bind H. inv_bind H. inversion H; subst. simpl. f_equal. now apply IH.
Qed.

(** ** Names, labels and cells *)

Lemma mem_In (x : string) (l : list string) : mem x l = true <-> In x l.
Proof.
  unfold mem. rewrite existsb_exists. split.
  - intros [y [Hy He]]. apply String.eqb_eq in He. now subst.
  - intros H. exists x. split; [assumption | apply String.eqb_refl].
Qed.

Lemma mem_filter (p : string -> bool) (x : string) (l : list string) :
  mem x (filter p l) = mem x l && p x.
Proof.
  destruct (mem x (filter p l)) eqn:E.
  - apply mem_In in E. apply filter_In in E. destruct E as [Hin Hp].
    apply mem_In in Hin. now rewrite Hin, Hp.
  - destruct (mem x l) eqn:El; [|reflexivity]. destruct (p x) eqn:Ep; [|reflexivity].
    apply mem_In in El. assert (In x (filter p l)) as Hf by (apply filter_In; auto).
    apply mem_In in Hf. congruence.
Qed.

Lemma label_eqb_eq (a b : Label) : label_eqb a b = true <-> a = b.
Proof.
  destruct a as [x|x], b as [y|y]; simpl; split; intros H;
    try discriminate; try congruence.
  - apply Z.eqb_eq in H. now subst.
  - inversion H. apply Z.eqb_refl.
  - apply String.eqb_eq in H. now subst.
  - inversion H. apply String.eqb_refl.
Qed.

Lemma label_eqb_refl (a : Label) : label_eqb a a = true.
Proof. now apply label_eqb_eq. Qed.

Lemma mem_label_In (x : Label) (l : list Label) : mem_label x l = true <-> In x l.
Proof.
  unfold mem_label. rewrite existsb_exists. split.
  - intros [y [Hy He]]. apply label_eqb_eq in He. now subst.
  - intros H. exists x. split; [assumption | apply label_eqb_refl].
Qed.

Lemma nodupb_NoDup (l : list Label) : nodupb l = true <-> NoDup l.
Proof.
  induction l as [|x l IH]; simpl.
  - split; [constructor | reflexivity].
  - rewrite andb_true_iff, negb_true_iff, IH. split.
    + intros [Hx Hl]. constructor; [|assumption].
      intros Hin. apply mem_label_In in Hin. congruence.
    + intros H. inversion H; subst. split; [|assumption].
      destruct (mem_label x l) eqn:E; [|reflexivity].
      apply mem_label_In in E. contradiction.
Qed.

Lemma list_eqb_label_eq (l1 l2 : list Label) :
  list_eqb label_eqb l1 l2 = true <-> l1 = l2.
Proof.
  revert l2; induction l1 as [|a l1 IH]; intros [|b l2]; simpl;
    try (split; [discriminate | discriminate]); try (split; reflexivity).
  rewrite andb_true_iff, label_eqb_eq, IH. split.
  - intros [-> ->]. reflexivity.
  - intros H. inversion H. auto.
Qed.

Lemma list_eqb_string_eq (l1 l2 : list string) :
  list_eqb String.eqb l1 l2 = true <-> l1 = l2.
Proof.
  revert l2; induction l1 as [|a l1 IH]; intros [|b l2]; simpl;
    try (split; [discriminate | discriminate]); try (split; reflexivity).
  rewrite andb_true_iff, String.eqb_eq, IH. split.
  - intros [-> ->]. reflexivity.
  - intros H. inversion H. auto.
Qed.

(** Reading a row that was built column by column. *)
Lemma lookup_col_map (g : string -> Cell) (cols : list string) (c : string) :
  lookup_col cols (map g cols) c = if mem c cols then Some (g c) else None.
Proof.
  induction cols as [|k cols IH]; simpl; [reflexivity|].
  destruct (String.eqb c k) eqn:E; simpl.
  - apply String.eqb_eq in E. now subst.
  - exact IH.
Qed.

Lemma cell_map (g : string -> Cell) (cols : list string) (c : string) :
  cell cols (map g cols) c = if mem c cols then g c else CNaN.
Proof.
  unfold cell. rewrite lookup_col_map. now destruct (mem c cols).
Qed.

Lemma lookup_col_app (g : string -> Cell) (cols more : list string)
    (rest : list Cell) (c : string) :
  mem c cols = true ->
  lookup_col (cols ++ more) (map g cols ++ rest) c = Some (g c).
Proof.
  induction cols as [|k cols IH]; simpl; [discriminate|].
  destruct (String.eqb c k) eqn:E; simpl.
  - intros _. apply String.eqb_eq in E. now subst.
  - exact IH.
Qed.

Lemma cell_app (g : string -> Cell) (cols more : list string)
    (rest : list Cell) (c : string) :
  mem c cols = true ->
  cell (cols ++ more) (map g cols ++ rest) c = g c.
Proof.
  intros H. unfold cell. now rewrite lookup_col_app.
Qed.

(** ** Column selection *)

Lemma get_matching_cols_subset (df : DataFrame) (f : ColFunc) (c : string) :
  mem c (get_matching_cols df f) = mem c (columns df) && f df c.
Proof. unfold get_matching_cols. apply mem_filter. Qed.

Lemma getitem_matching (df : DataFrame) (f : ColFunc) :
  pd.getitem_cols df (get_matching_cols df f) =
  Ok (mkDataFrame (get_matching_cols df f)
        (map (fun r => (fst r, map (cell (columns df) (snd r)) (get_matching_cols df f)))
             (rows df))).
Proof.
  unfold pd.getitem_cols.
  replace (forallb (fun c => mem c (columns df)) (get_matching_cols df f)) with true;
    [reflexivity|].
  symmetry. apply forallb_forall. intros c Hc. apply mem_In.
  unfold get_matching_cols in Hc. apply filter_In in Hc. tauto.
Qed.

(** ** Median imputation ([load_num_feats]) *)

Lemma median_series (g : string -> Exc Cell) (l : list string)
    (s : list (string * Cell)) :
  mapM (fun c => m <- g c ;; Ok (c, m)) l = Ok s ->
  forall c, In c l -> g c = Ok (pd.series_get s c).
Proof.
  revert s; induction l as [|k l IH]; simpl; intros s H c Hc; [contradiction|].
  inv_bind H. inv_bind Ha. inversion Ha; subst a. clear Ha.
  inv_bind H. inversion H; subst s. clear H. simpl.
  destruct (String.eqb c k) eqn:E.
  - apply String.eqb_eq in E. now subst.
  - destruct Hc as [Hc|Hc].
    + subst. rewrite String.eqb_refl in E. discriminate.
    + now apply IH.
Qed.

Lemma col_values_getitem (df : DataFrame) (cols : list string) (c : string) :
  mem c cols = true ->
  pd.col_values
    (mkDataFrame cols
       (map (fun r => (fst r, map (cell (columns df) (snd r)) cols)) (rows df))) c =
  pd.col_values df c.
Proof.
  intros H. unfold pd.col_values. simpl. rewrite map_map. apply map_ext.
  intros r. simpl. now rewrite cell_map, H.
Qed.

Lemma combine_map_self (A B : Type) (h : A -> B) (l : list A) :
  combine l (map h l) = map (fun x => (x, h x)) l.
Proof. induction l as [|a l IH]; simpl; [reflexivity | now rewrite IH]. Qed.

(** What [load_num_feats] returns when it returns: the table with the
    missing cells of the selected columns filled, and the selected columns of
    that table as a matrix. *)
Lemma load_num_feats_ok (df df' : DataFrame) (f : ColFunc) (feats : option Matrix) :
  load_num_feats df f = Ok (df', feats) ->
  df' = mkDataFrame (columns df)
          (map (fun r =>
                  (fst r,
                   map (fun c => if mem c (get_matching_cols df f)
                                 then pd.fill (column_median df c)
                                              (cell (columns df) (snd r) c)
                                 else cell (columns df) (snd r) c)
                       (columns df)))
               (rows df)) /\
  feats = if Nat.eqb (length (get_matching_cols df f)) 0 then None
          else Some (map (fun r =>
                            map (fun c => pd.fill (column_median df c)
                                                  (cell (columns df) (snd r) c))
                                (get_matching_cols df f))
                         (rows df)).
Proof.
  unfold load_num_feats. set (num_cols := get_matching_cols df f).
  intros H. unfold num_cols in H at 1. rewrite getitem_matching in H. fold num_cols in H.
  simpl in H. inv_bind H. rename a into med.
  unfold pd.median in Ha. simpl in Ha.
  assert (Hmed : forall c, In c num_cols -> pd.series_get med c = column_median df c).
  { intros c Hc. pose proof (median_series _ _ Ha c Hc) as Hm. simpl in Hm.
    unfold column_median. rewrite col_values_getitem in Hm by now apply mem_In.
    now rewrite Hm. }
  set (df1 := pd.setitem_cols df num_cols _) in H.
  assert (Hdf1 : df1 = mkDataFrame (columns df)
          (map (fun r =>
                  (fst r,
                   map (fun c => if mem c num_cols
                                 then pd.fill (column_median df c)
                                              (cell (columns df) (snd r) c)
                                 else cell (columns df) (snd r) c)
                       (columns df)))
               (rows df))).
  { unfold df1, pd.setitem_cols, pd.fillna. simpl. f_equal.
    rewrite map_map. rewrite combine_map_self, map_map. apply map_ext.
    intros r. simpl. f_equal. apply map_ext. intros c.
    destruct (mem c num_cols) eqn:E; [|reflexivity].
    rewrite cell_map, E, cell_map, E. rewrite Hmed by now apply mem_In.
    reflexivity. }
  clearbody df1. subst df1.
  destruct (Nat.eqb (length num_cols) 0) eqn:En.
  - inversion H; subst. split; reflexivity.
  - inv_bind H. inversion H; subst. clear H. split; [reflexivity|]. f_equal.
    unfold pd.getitem_cols in Ha0. simpl in Ha0.
    destruct (forallb _ num_cols); [|discriminate]. inversion Ha0; subst a. clear Ha0.
    unfold pd.values. simpl. rewrite !map_map. apply map_ext. intros r. simpl.
    apply map_ext_in. intros c Hc. rewrite cell_map.
    assert (mem c num_cols = true) as Hn by now apply mem_In.
    pose proof Hn as Hn'. unfold num_cols in Hn'.
    rewrite get_matching_cols_subset in Hn'. apply andb_true_iff in Hn'.
    destruct Hn' as [Hcols _]. now rewrite Hcols, Hn.
Qed.

(** [load_num_feats] returns whenever no selected column holds a string. *)
Lemma load_num_feats_total (df : DataFrame) (f : ColFunc) :
  (forall c, In c (get_matching_cols df f) ->
             existsb is_str (pd.col_values df c) = false) ->
  exists r, load_num_feats df f = Ok r.
Proof.
  intros Hnum. unfold load_num_feats. rewrite getitem_matching. simpl.
  set (num_cols := get_matching_cols df f) in *.
  assert (Hm : exists med, pd.median
             (mkDataFrame num_cols
                (map (fun r => (fst r, map (cell (columns df) (snd r)) num_cols))
                     (rows df))) = Ok med).
  { unfold pd.median. simpl.
    assert (Hall : forall c, In c num_cols ->
              exists m, pd.median_cells (pd.col_values
                (mkDataFrame num_cols
                   (map (fun r => (fst r, map (cell (columns df) (snd r)) num_cols))
                        (rows df))) c) = Ok m).
    { intros c Hc. rewrite col_values_getitem by now apply mem_In.
      unfold pd.median_cells. rewrite (Hnum c Hc).
      destruct (median_Q _); eauto. }
    clear Hnum. generalize dependent Hall.
    generalize (mkDataFrame num_cols
                  (map (fun r => (fst r, map (cell (columns df) (snd r)) num_cols))
                       (rows df))) as sub.
    intros sub. induction num_cols as [|k l IH]; intros Hall; simpl; [eauto|].
    destruct (Hall k (or_introl eq_refl)) as [m Hk]. rewrite Hk. simpl.
    destruct IH as [med Hmed]; [intros c Hc; apply Hall; now right|].
    rewrite Hmed. simpl. eauto. }
  destruct Hm as [med Hmed]. rewrite Hmed. simpl.
  destruct (Nat.eqb (length num_cols) 0); [eauto|].
  unfold pd.getitem_cols. simpl.
  replace (forallb (fun c => mem c (columns df)) num_cols) with true; [simpl; eauto|].
  symmetry. apply forallb_forall. intros c Hc. apply mem_In.
  unfold num_cols, get_matching_cols in Hc. apply filter_In in Hc. tauto.
Qed.

Lemma cell_absent (cols : list string) (r : list Cell) (c : string) :
  mem c cols = false -> cell cols r c = CNaN.
Proof.
  unfold cell. revert r; induction cols as [|k cols IH]; intros r H; simpl.
  - reflexivity.
  - destruct r as [|x r]; [reflexivity|]. simpl in H.
    apply orb_false_iff in H. destruct H as [Hk Hc]. rewrite Hk. now apply IH.
Qed.

Lemma load_num_feats_cells (df df' : DataFrame) (f : ColFunc) (feats : option Matrix) :
  load_num_feats df f = Ok (df', feats) ->
  columns df' = columns df /\
  index df' = index df /\
  forall i c, i < length (rows df) ->
    cell_at df' i c =
    if mem c (get_matching_cols df f)
    then pd.fill (column_median df c) (cell_at df i c)
    else cell_at df i c.
Proof.
  intros H. apply load_num_feats_ok in H. destruct H as [-> _]. simpl.
  split; [reflexivity|]. split.
  - unfold index. simpl. rewrite map_map. reflexivity.
  - intros i c Hi. unfold cell_at. simpl. rewrite nth_error_map.
    destruct (nth_error (rows df) i) as [[l r]|] eqn:E.
    + simpl. rewrite cell_map. rewrite get_matching_cols_subset.
      destruct (mem c (columns df)) eqn:Ec; simpl; [reflexivity|].
      now rewrite cell_absent.
    + apply nth_error_None in E. lia.
Qed.

Lemma load_num_feats_rows (df df' : DataFrame) (f : ColFunc) (feats : option Matrix) :
  load_num_feats df f = Ok (df', feats) ->
  length (rows df') = length (rows df).
Proof.
  intros H. apply load_num_feats_ok in H. destruct H as [-> _]. simpl.
  now rewrite length_map.
Qed.

(** ** Cutting the splits out of the union ([.loc]) *)

Lemma rows_at_none (rs : list (Label * list Cell)) (l : Label) :
  ~ In l (map fst rs) ->
  filter (fun r => label_eqb (fst r) l) rs = [].
Proof.
  induction rs as [|x rs IH]; simpl; intros H; [reflexivity|].
  destruct (label_eqb (fst x) l) eqn:E.
  - apply label_eqb_eq in E. tauto.
  - apply IH. tauto.
Qed.

Lemma rows_at_unique (rs : list (Label * list Cell)) (r : Label * list Cell) :
  NoDup (map fst rs) -> In r rs ->
  filter (fun r' => label_eqb (fst r') (fst r)) rs = [r].
Proof.
  induction rs as [|x rs IH]; simpl; intros Hnd Hin; [contradiction|].
  inversion Hnd as [|? ? Hx Hrs]; subst. destruct Hin as [->|Hin].
  - rewrite label_eqb_refl. f_equal. now apply rows_at_none.
  - destruct (label_eqb (fst x) (fst r)) eqn:E.
    + apply label_eqb_eq in E. exfalso. apply Hx. rewrite E. now apply in_map.
    + now apply IH.
Qed.

(** With an index free of duplicates, [.loc] on the labels of some rows of
    the table returns exactly those rows, in the order asked. *)
Lemma loc_part (df : DataFrame) (part : list (Label * list Cell)) :
  NoDup (index df) -> incl part (rows df) ->
  pd.loc df (map fst part) = Ok (mkDataFrame (columns df) part).
Proof.
  intros Hnd Hincl. unfold pd.loc.
  assert (H : mapM (fun l => match pd.rows_at df l with
                             | [] => Raise KeyError
                             | found => Ok found
                             end) (map fst part) = Ok (map (fun r => [r]) part)).
  { induction part as [|r part IH]; simpl; [reflexivity|].
    unfold pd.rows_at at 1. rewrite rows_at_unique; [|assumption|apply Hincl; now left].
    simpl. rewrite IH; [reflexivity|]. intros x Hx. apply Hincl. now right. }
  rewrite H. simpl. f_equal. f_equal.
  clear. induction part as [|r part IH]; simpl; [reflexivity | now rewrite IH].
Qed.

(** ** Stacking the splits ([pd.concat], [axis=0]) *)

Lemma union_columns_acc (dfs : list DataFrame) (acc : list string) (c : string) :
  In c acc \/ (exists d, In d dfs /\ In c (columns d)) ->
  In c (fold_left (fun acc df =>
                     acc ++ filter (fun c => negb (mem c acc)) (columns df))
                  dfs acc).
Proof.
  revert acc; induction dfs as [|d dfs IH]; simpl; intros acc H.
  - destruct H as [H|[d [[] _]]]. assumption.
  - apply IH. destruct H as [H|[d' [[->|Hd] Hc]]].
    + left. apply in_or_app. now left.
    + left. apply in_or_app. destruct (mem c acc) eqn:E.
      * left. now apply mem_In.
      * right. apply filter_In. split; [assumption|]. now rewrite E.
    + right. eauto.
Qed.

Lemma union_columns_incl (dfs : list DataFrame) (d : DataFrame) (c : string) :
  In d dfs -> In c (columns d) -> In c (pd.union_columns dfs).
Proof.
  intros Hd Hc. unfold pd.union_columns. apply union_columns_acc. right. eauto.
Qed.

Lemma Forall2_map_r (A B : Type) (R : A -> B -> Prop) (h : A -> B) (l : list A) :
  (forall a, In a l -> R a (h a)) -> Forall2 R l (map h l).
Proof.
  induction l as [|a l IH]; simpl; intros H; constructor.
  - apply H. now left.
  - apply IH. intros x Hx. apply H. now right.
Qed.

Lemma Forall2_flat_map (A B C : Type) (R : B -> C -> Prop)
    (f : A -> list B) (g : A -> list C) (l : list A) :
  (forall a, In a l -> Forall2 R (f a) (g a)) ->
  Forall2 R (flat_map f l) (flat_map g l).
Proof.
  induction l as [|a l IH]; simpl; intros H; [constructor|].
  apply Forall2_app.
  - apply H. now left.
  - apply IH. intros x Hx. apply H. now right.
Qed.

(** Every row of a stacked table is a row of one of the frames, under the
    same label and with the same values. *)
Lemma concat_rows_agree (dfs : list DataFrame) :
  exists al : DataFrame -> list (Label * list Cell),
    rows (pd.concat_rows dfs) = flat_map al dfs /\
    forall d, In d dfs ->
      incl (columns d) (columns (pd.concat_rows dfs)) /\
      Forall2 (rows_agree (fun _ => false) (columns d) (columns (pd.concat_rows dfs)))
              (rows d) (al d).
Proof.
  unfold pd.concat_rows. destruct dfs as [|d0 dfs]; [exists rows; simpl; tauto|].
  destruct (forallb _ (d0 :: dfs)) eqn:E.
  - exists rows. simpl. split; [reflexivity|]. intros d Hd.
    rewrite forallb_forall in E. specialize (E d Hd).
    apply list_eqb_string_eq in E. rewrite E. split; [apply incl_refl|].
    replace (rows d) with (map (fun r => r) (rows d)) at 2 by apply map_id.
    apply Forall2_map_r. intros r _. split; reflexivity.
  - set (u := pd.union_columns (d0 :: dfs)).
    exists (pd.reindex_columns u). split; [reflexivity|]. intros d Hd. simpl. split.
    + intros c Hc. eapply union_columns_incl; eassumption.
    + unfold pd.reindex_columns. apply Forall2_map_r. intros r _. split; [reflexivity|].
      intros c Hc _. simpl. rewrite cell_map.
      replace (mem c u) with true; [reflexivity|]. symmetry. apply mem_In.
      eapply union_columns_incl; eassumption.
Qed.

Lemma Forall2_fst (replaced : string -> bool) (cols cols' : list string)
    (l l' : list (Label * list Cell)) :
  Forall2 (rows_agree replaced cols cols') l l' -> map fst l' = map fst l.
Proof.
  induction 1 as [|a b l l' [Hab _] _ IH]; simpl; [reflexivity|].
  now rewrite Hab, IH.
Qed.

Lemma Forall2_compose (A B C : Type) (R1 : A -> B -> Prop) (R2 : B -> C -> Prop)
    (R3 : A -> C -> Prop) (l1 : list A) (l2 : list B) (l3 : list C) :
  (forall a b c, R1 a b -> R2 b c -> R3 a c) ->
  Forall2 R1 l1 l2 -> Forall2 R2 l2 l3 -> Forall2 R3 l1 l3.
Proof.
  intros Hc H12. revert l3. induction H12 as [|a b l1 l2 Hab _ IH]; intros l3 H23.
  - inversion H23. constructor.
  - inversion H23; subst. constructor; eauto.
Qed.

Lemma Forall2_flat_map_part (A B C : Type) (R : B -> C -> Prop)
    (f : A -> list B) (l : list A) (P : list C) (a : A) :
  Forall2 R (flat_map f l) P -> In a l ->
  exists Pa, incl Pa P /\ Forall2 R (f a) Pa.
Proof.
  revert P; induction l as [|x l IH]; simpl; intros P H Hin; [contradiction|].
  apply Forall2_app_inv_l in H. destruct H as (P1 & P2 & H1 & H2 & ->).
  destruct Hin as [->|Hin].
  - exists P1. split; [apply incl_appl, incl_refl | assumption].
  - destruct (IH P2 H2 Hin) as (Pa & Hincl & HF). exists Pa. split; [|assumption].
    apply incl_appr. assumption.
Qed.

Lemma Forall2_nth_error (A B : Type) (R : A -> B -> Prop) (l : list A) (l' : list B)
    (i : nat) :
  Forall2 R l l' ->
  match nth_error l i, nth_error l' i with
  | Some a, Some b => R a b
  | None, None => True
  | _, _ => False
  end.
Proof.
  intros H. revert i. induction H as [|a b l l' Hab _ IH]; intros [|i]; simpl; auto.
  apply IH.
Qed.

Lemma same_rows_of_Forall2 (replaced : string -> bool) (d : DataFrame)
    (cols' : list string) (P : list (Label * list Cell)) :
  Forall2 (rows_agree replaced (columns d) cols') (rows d) P ->
  same_rows replaced d (mkDataFrame cols' P).
Proof.
  intros H. split.
  - unfold index. simpl. eapply Forall2_fst. eassumption.
  - intros i c Hc Hr. unfold cell_at. simpl.
    pose proof (Forall2_nth_error i H) as Hi.
    destruct (nth_error (rows d) i) as [[l r]|], (nth_error P i) as [[l' r']|];
      try contradiction; [|reflexivity].
    destruct Hi as [_ Hi]. now apply Hi.
Qed.

Lemma index_concat_rows (dfs : list DataFrame) :
  index (pd.concat_rows dfs) = flat_map index dfs.
Proof.
  destruct (concat_rows_agree dfs) as (al & Hrows & Hal).
  unfold index at 1. rewrite Hrows. clear Hrows.
  assert (Hfst : forall d, In d dfs -> map fst (al d) = index d).
  { intros d Hd. destruct (Hal d Hd) as [_ HF]. eapply Forall2_fst. eassumption. }
  clear Hal. induction dfs as [|d dfs IH]; simpl; [reflexivity|].
  rewrite map_app. f_equal.
  - apply Hfst. now left.
  - apply IH. intros d' Hd'. apply Hfst. now right.
Qed.

(** The splits come back from a table that extends the stacked one: when the
    table holds, under an index free of duplicates, a row for every row of
    the union, [.loc] on the index of a split returns the rows of that
    split. *)
Lemma resplit (dfs : list DataFrame) (data' : DataFrame) (replaced : string -> bool)
    (P E : list (Label * list Cell)) :
  rows data' = P ++ E ->
  Forall2 (rows_agree replaced (columns (pd.concat_rows dfs)) (columns data'))
          (rows (pd.concat_rows dfs)) P ->
  NoDup (index data') ->
  forall d, In d dfs ->
    exists d', pd.loc data' (index d) = Ok d' /\ same_rows replaced d d'.
Proof.
  intros Hrows HP Hnd d Hd.
  destruct (concat_rows_agree dfs) as (al & Hal_rows & Hal).
  rewrite Hal_rows in HP.
  destruct (Forall2_flat_map_part _ _ _ HP Hd) as (Pd & Hincl & HPd).
  destruct (Hal d Hd) as [Hcols Hd_al].
  assert (Hall : Forall2 (rows_agree replaced (columns d) (columns data')) (rows d) Pd).
  { eapply Forall2_compose; [|exact Hd_al|exact HPd].
    intros a b c [Hab1 Hab2] [Hbc1 Hbc2]. split; [congruence|].
    intros x Hx Hr. rewrite Hbc2; [|apply Hcols; assumption|assumption].
    now apply Hab2. }
  exists (mkDataFrame (columns data') Pd). split.
  - replace (index d) with (map fst Pd) by (eapply Forall2_fst; eassumption).
    apply loc_part; [assumption|]. rewrite Hrows. now apply incl_appl.
  - now apply same_rows_of_Forall2.
Qed.

(** ** The encodings of the union *)

Lemma encode_dummies_agree (str_of : Cell -> string) (data data' : DataFrame)
    (l : list string) :
  encode_dummies str_of data l = Ok data' ->
  Forall2 (rows_agree (fun c => mem c l) (columns data) (columns data'))
          (rows data) (rows data').
Proof.
  unfold encode_dummies. destruct (forallb _ l); [|discriminate].
  intros H. inversion H; subst data'. clear H. simpl.
  apply Forall2_map_r. intros r _. split; [reflexivity|].
  intros c Hc Hrep. simpl. apply cell_app.
  rewrite mem_filter, Hrep. simpl. rewrite andb_true_r. now apply mem_In.
Qed.

Lemma encode_dummies_no_columns (str_of : Cell -> string) (data data' : DataFrame)
    (l : list string) :
  encode_dummies str_of data l = Ok data' ->
  columns data' = [] -> columns data = [].
Proof.
  unfold encode_dummies. destruct (forallb _ l); [|discriminate].
  intros H. inversion H; subst data'. clear H. simpl. intros Hnil.
  apply app_eq_nil in Hnil. destruct Hnil as [Hkept Hdum].
  assert (l = []) as ->.
  { destruct l as [|c l]; [reflexivity|]. simpl in Hdum.
    apply app_eq_nil in Hdum. destruct Hdum as [Hd _]. unfold dummy_names in Hd.
    apply app_eq_nil in Hd. destruct Hd as [_ Hd]. discriminate. }
  simpl in Hkept. destruct (columns data) as [|c cols]; [reflexivity|].
  simpl in Hkept. discriminate.
Qed.

Lemma row_or_nan_unique (a : DataFrame) (r : Label * list Cell) :
  NoDup (index a) -> In r (rows a) ->
  pd.row_or_nan a (fst r) = pd.row_cells a r.
Proof.
  intros Hnd Hin. unfold pd.row_or_nan, pd.rows_at.
  now rewrite rows_at_unique.
Qed.

Lemma combine_agree (a b : DataFrame) :
  length (rows a) = length (rows b) ->
  Forall2 (rows_agree (fun _ => false) (columns a) (columns a ++ columns b))
    (rows a)
    (map (fun rv => (fst (fst rv), pd.row_cells a (fst rv) ++ pd.row_cells b (snd rv)))
         (combine (rows a) (rows b))).
Proof.
  unfold pd.row_cells.
  generalize (rows b) as rb. induction (rows a) as [|r ra IH]; intros [|x rb] Hlen;
    simpl in *; try discriminate; constructor.
  - split; [reflexivity|]. intros c Hc _. simpl.
    apply (cell_app (cell (columns a) (snd r))). now apply mem_In.
  - apply IH. lia.
Qed.

Lemma rows_agree_weaken (rep1 rep2 : string -> bool) (cols cols' : list string)
    (l l' : list (Label * list Cell)) :
  (forall c, In c cols -> rep2 c = false -> rep1 c = false) ->
  Forall2 (rows_agree rep1 cols cols') l l' ->
  Forall2 (rows_agree rep2 cols cols') l l'.
Proof.
  intros Hrep. apply Forall2_impl. intros r r' [Hl Hc]. split; [assumption|].
  intros c Hin H2. apply Hc; [assumption|]. now apply Hrep.
Qed.

(** Joining the encoded columns to the union ([axis=1]) keeps a row for
    every row of the union, and an index free of duplicates stays so. *)
Lemma concat_cols_agree (a b data' : DataFrame) :
  pd.concat_cols a b = Ok data' ->
  NoDup (index a) ->
  exists P E,
    rows data' = P ++ E /\
    Forall2 (rows_agree (fun _ => false) (columns a) (columns data')) (rows a) P /\
    NoDup (index data').
Proof.
  unfold pd.concat_cols. intros H Hnd.
  destruct (list_eqb label_eqb (index a) (index b)) eqn:Eidx.
  - inversion H; subst data'. clear H. cbn [rows columns].
    apply list_eqb_label_eq in Eidx.
    assert (Hlen : length (rows a) = length (rows b)).
    { unfold index in Eidx. apply (f_equal (@length Label)) in Eidx.
      now rewrite !length_map in Eidx. }
    pose proof (combine_agree a b Hlen) as HF.
    eexists. exists []. split; [symmetry; apply app_nil_r|]. split; [exact HF|].
    unfold index. cbn [rows]. rewrite (Forall2_fst HF). exact Hnd.
  - destruct (nodupb (index a) && nodupb (index b)) eqn:End; [|discriminate].
    apply andb_true_iff in End. destruct End as [_ Hndb]. apply nodupb_NoDup in Hndb.
    inversion H; subst data'. clear H. cbn [rows columns].
    rewrite map_app. eexists. eexists. split; [reflexivity|]. split.
    + unfold index. rewrite map_map. apply Forall2_map_r. intros r Hr.
      split; [reflexivity|]. intros c Hc _. cbn [snd].
      rewrite row_or_nan_unique by assumption. unfold pd.row_cells.
      apply (cell_app (cell (columns a) (snd r))). now apply mem_In.
    + unfold index at 1. cbn [rows]. rewrite <- map_app, map_map. cbn [fst].
      rewrite map_id. apply NoDup_app.
      * assumption.
      * now apply NoDup_filter.
      * intros l Hl Hf. apply filter_In in Hf. destruct Hf as [_ Hf].
        apply mem_label_In in Hl. rewrite Hl in Hf. discriminate.
Qed.

(** ** The per-split pass ([load_data]) *)

Section Properties.

Variable str_of_num : Q -> string.
Variable TokOut : Type.
Variable tokenizer : list string -> option nat -> TokOut.
Variable Transformer : Type.
Variable PowerTransformer : string -> Transformer.
Variable QuantileTransformer : string -> Transformer.
Variable fit : Transformer -> Matrix -> Exc Transformer.
Variable transform : Transformer -> Matrix -> Exc (Transformer * Matrix).
Variable CategoricalFeatures : DataFrame -> ColSpec -> option string ->
                               Exc (Matrix * list string).

Local Abbreviation load_data_ :=
  (load_data str_of_num tokenizer transform CategoricalFeatures).
Local Abbreviation union_fit_ := (union_fit str_of_num CategoricalFeatures).
Local Abbreviation fit_numerical_ :=
  (fit_numerical PowerTransformer QuantileTransformer fit).
Local Abbreviation load_data_from_folder_ :=
  (load_data_from_folder str_of_num tokenizer PowerTransformer QuantileTransformer
                         fit transform CategoricalFeatures).
Local Abbreviation load_cat_feats_ := (load_cat_feats CategoricalFeatures).
Local Abbreviation normalize_ := (normalize_numerical_feats transform).

(** ** The union fit (lines 38-58) *)

Lemma index_union_table (train_df test_df : DataFrame) (val_df : option DataFrame) :
  index (union_table train_df val_df test_df) =
  index train_df ++ match val_df with Some v => index v | None => [] end ++
  index test_df.
Proof.
  unfold union_table. rewrite index_concat_rows.
  destruct val_df; simpl; now rewrite app_nil_r.
Qed.

Lemma replaced_by_binary (et : option string) (cc : ColSpec) (c : string) :
  is_encode_type et "ohe" = false -> replaced_by et cc c = false.
Proof. intros H. unfold replaced_by. now rewrite H. Qed.

(** The table that the encoding step leaves holds a row for every row of the
    union, with the values of the columns that were not replaced. *)
Lemma encoded_union_agree (data data' : DataFrame) (cc cc' : ColSpec)
    (et : option string) :
  is_encode_type et "ohe" || is_encode_type et "binary" = true ->
  NoDup (index data) ->
  (if is_encode_type et "ohe" then
     data_df <- get_dummies (astype_str str_of_num) data cc ;;
     cols <- ohe_columns data_df cc ;;
     Ok (data_df, SpecList cols)
   else
     '(vals, feat_names) <- CategoricalFeatures data cc (Some "binary") ;;
     cat_df <- pd.DataFrame_of vals feat_names ;;
     data_df <- pd.concat_cols data cat_df ;;
     Ok (data_df, SpecList feat_names)) = Ok (data', cc') ->
  exists P E,
    rows data' = P ++ E /\
    Forall2 (rows_agree (replaced_by et cc) (columns data) (columns data'))
            (rows data) P /\
    NoDup (index data').
Proof.
  intros Het Hnd H. destruct (is_encode_type et "ohe") eqn:Eohe.
  - inv_bind H. rename a into d1. inv_bind H. inversion H; subst d1 cc'. clear H.
    assert (Hgen : forall l,
              encode_dummies (astype_str str_of_num) data l = Ok data' ->
              (forall c, In c (columns data) -> replaced_by et cc c = false ->
                         mem c l = false) ->
              exists P E,
                rows data' = P ++ E /\
                Forall2 (rows_agree (replaced_by et cc) (columns data) (columns data'))
                        (rows data) P /\
                NoDup (index data')).
    { intros l Henc Hrep. apply encode_dummies_agree in Henc.
      exists (rows data'), []. split; [symmetry; apply app_nil_r|]. split.
      - eapply rows_agree_weaken; [|exact Henc]. exact Hrep.
      - unfold index. rewrite (Forall2_fst Henc). exact Hnd. }
    destruct cc as [| | |l| |]; simpl in Ha; try discriminate.
    + eapply Hgen; [exact Ha|]. intros c Hc _. exfalso.
      simpl in Ha0. destruct (columns data') eqn:Ecols; [|discriminate].
      apply encode_dummies_no_columns in Ha; [|assumption].
      rewrite Ha in Hc. contradiction.
    + eapply Hgen; [exact Ha|]. intros c _ Hrep. unfold replaced_by in Hrep.
      now rewrite Eohe in Hrep.
  - inv_bind H. destruct a as [vals feat_names]. inv_bind H. rename a into cat_df.
    inv_bind H. rename a into d1. inversion H; subst d1 cc'. clear H.
    destruct (concat_cols_agree _ _ Ha1 Hnd) as (P & E & Hrows & HF & Hnd').
    exists P, E. split; [assumption|]. split; [|assumption].
    eapply rows_agree_weaken; [|exact HF]. reflexivity.
Qed.

(** With labels that occur once across the splits, every split comes back
    from the union fit with its rows, in their order. *)
Lemma union_fit_same_rows (train_df test_df train' test' : DataFrame)
    (val_df val' : option DataFrame) (cc cc' : ColSpec) (et et' : option string) :
  is_encode_type et "ohe" || is_encode_type et "binary" = true ->
  NoDup (index train_df ++ match val_df with Some v => index v | None => [] end ++
         index test_df) ->
  union_fit_ train_df val_df test_df cc et = Ok (train', val', test', cc', et') ->
  same_rows (replaced_by et cc) train_df train' /\
  same_rows (replaced_by et cc) test_df test' /\
  match val_df, val' with
  | Some v, Some v' => same_rows (replaced_by et cc) v v'
  | None, None => True
  | _, _ => False
  end.
Proof.
  intros Het Hnd H. unfold union_fit in H. rewrite Het in H.
  inv_bind H. destruct a as [data' cc1].
  rewrite <- index_union_table in Hnd.
  destruct (encoded_union_agree _ _ _ Het Hnd Ha) as (P & E & Hrows & HF & Hnd').
  pose proof (fun d => @resplit _ data' (replaced_by et cc) P E Hrows HF Hnd' d) as Hre.
  inv_bind H. rename a into tr1, Ha0 into Htr.
  inv_bind H. rename a into v1, Ha0 into Hv.
  inv_bind H. rename a into te1, Ha0 into Hte.
  inversion H; subst tr1 v1 te1 cc1 et'. clear H.
  destruct (Hre train_df) as (d1 & Hd1 & Hs1); [now left|].
  destruct (Hre test_df) as (d2 & Hd2 & Hs2);
    [right; apply in_or_app; right; now left|].
  rewrite Hd1 in Htr. inversion Htr; subst d1.
  rewrite Hd2 in Hte. inversion Hte; subst d2.
  split; [assumption|]. split; [assumption|].
  destruct val_df as [v|].
  - destruct (Hre v) as (d3 & Hd3 & Hs3); [right; now left|].
    rewrite Hd3 in Hv. simpl in Hv. inversion Hv; subst val'. assumption.
  - inversion Hv; subst val'. exact I.
Qed.

Lemma same_rows_length (replaced : string -> bool) (d d' : DataFrame) :
  same_rows replaced d d' -> length (rows d') = length (rows d).
Proof.
  intros [Hidx _]. unfold index in Hidx.
  apply (f_equal (@length Label)) in Hidx. now rewrite !length_map in Hidx.
Qed.

(** Without a union scheme, the block leaves everything as it is. *)
Lemma union_fit_skipped (train_df test_df : DataFrame) (val_df : option DataFrame)
    (cc : ColSpec) (et : option string) :
  is_encode_type et "ohe" || is_encode_type et "binary" = false ->
  union_fit_ train_df val_df test_df cc et = Ok (train_df, val_df, test_df, cc, et).
Proof. intros H. unfold union_fit. now rewrite H. Qed.

(** The validation table is there after the block exactly when it was there
    before. *)
Lemma union_fit_val (train_df test_df train' test' : DataFrame)
    (val_df val' : option DataFrame) (cc cc' : ColSpec) (et et' : option string) :
  union_fit_ train_df val_df test_df cc et = Ok (train', val', test', cc', et') ->
  (val_df = None <-> val' = None).
Proof.
  unfold union_fit.
  destruct (is_encode_type et "ohe" || is_encode_type et "binary").
  - intros H. inv_bind H. destruct a as [data' cc1]. inv_bind H. inv_bind H.
    inv_bind H. inversion H; subst. destruct val_df.
    + inv_bind Ha1. inversion Ha1. split; discriminate.
    + inversion Ha1. tauto.
  - intros H. inversion H; subst. tauto.
Qed.

(** The three [.loc] calls that end the union block. *)
Lemma union_fit_inv (train_df test_df train' test' : DataFrame)
    (val_df val' : option DataFrame) (cc cc' : ColSpec) (et et' : option string) :
  is_encode_type et "ohe" || is_encode_type et "binary" = true ->
  union_fit_ train_df val_df test_df cc et = Ok (train', val', test', cc', et') ->
  exists data',
    (if is_encode_type et "ohe" then
       data_df <- get_dummies (astype_str str_of_num)
                              (union_table train_df val_df test_df) cc ;;
       cols <- ohe_columns data_df cc ;;
       Ok (data_df, SpecList cols)
     else
       '(vals, feat_names) <-
          CategoricalFeatures (union_table train_df val_df test_df) cc
                              (Some "binary") ;;
       cat_df <- pd.DataFrame_of vals feat_names ;;
       data_df <- pd.concat_cols (union_table train_df val_df test_df) cat_df ;;
       Ok (data_df, SpecList feat_names)) = Ok (data', cc') /\
    pd.loc data' (index train_df) = Ok train' /\
    pd.loc data' (index test_df) = Ok test' /\
    match val_df with
    | Some v => exists v', pd.loc data' (index v) = Ok v' /\ val' = Some v'
    | None => val' = None
    end /\
    et' = None.
Proof.
  intros Het H. unfold union_fit in H. rewrite Het in H.
  inv_bind H. destruct a as [data' cc1]. rename Ha into Henc.
  inv_bind H. rename a into tr1, Ha into Htr.
  inv_bind H. rename a into v1, Ha into Hv.
  inv_bind H. rename a into te1, Ha into Hte.
  inversion H; subst. clear H. exists data'.
  repeat (split; [assumption|]). split; [|reflexivity].
  destruct val_df as [v|].
  - inv_bind Hv. inversion Hv; subst. eauto.
  - now inversion Hv.
Qed.

(** The index that [pd.DataFrame(vals, ...)] creates has no duplicate. *)
Lemma range_index_NoDup (a n : nat) :
  NoDup (map (fun i => LInt (Z.of_nat i)) (seq a n)).
Proof.
  revert a; induction n as [|n IH]; intros a; simpl; constructor; [|apply IH].
  intros Hin. apply in_map_iff in Hin. destruct Hin as (i & Heq & Hi).
  apply in_seq in Hi. inversion Heq. lia.
Qed.

Lemma map_fst_combine (A B : Type) (l1 : list A) (l2 : list B) :
  length l1 = length l2 -> map fst (combine l1 l2) = l1.
Proof.
  revert l2; induction l1 as [|a l1 IH]; intros [|b l2] H; simpl in *;
    try discriminate; [reflexivity|]. f_equal. apply IH. lia.
Qed.

Lemma DataFrame_of_index_NoDup (vals : Matrix) (names : list string)
    (cat_df : DataFrame) :
  pd.DataFrame_of vals names = Ok cat_df -> NoDup (index cat_df).
Proof.
  unfold pd.DataFrame_of. destruct (forallb _ vals); [|discriminate].
  intros H. inversion H. unfold index. cbn [rows].
  rewrite map_fst_combine by (now rewrite length_map, length_seq).
  apply range_index_NoDup.
Qed.

(** On labels that occur twice in the union, the binary scheme does not
    return: joining the encoded columns to the union ([axis=1]) needs an
    index without duplicates. *)
Lemma binary_union_fit_refuses_shared_labels (train_df test_df : DataFrame)
    (val_df : option DataFrame) (cc : ColSpec) :
  ~ NoDup (index train_df ++
           match val_df with Some v => index v | None => [] end ++
           index test_df) ->
  exists e, union_fit_ train_df val_df test_df cc (Some "binary") = Raise e.
Proof.
  intros Hdup. rewrite <- index_union_table in Hdup. unfold union_fit.
  cbn [is_encode_type String.eqb Ascii.eqb Bool.eqb orb].
  set (data := union_table train_df val_df test_df) in *.
  destruct (CategoricalFeatures data cc (Some "binary")) as [[vals names]|e];
    cbn [bind]; [|eauto].
  destruct (pd.DataFrame_of vals names) as [cat_df|e] eqn:Ecat; cbn [bind]; [|eauto].
  apply DataFrame_of_index_NoDup in Ecat.
  unfold pd.concat_cols.
  destruct (list_eqb label_eqb (index data) (index cat_df)) eqn:Eidx.
  - apply list_eqb_label_eq in Eidx. rewrite Eidx in Hdup. contradiction.
  - destruct (nodupb (index data)) eqn:End.
    + apply nodupb_NoDup in End. contradiction.
    + cbn [andb bind]. eauto.
Qed.


(** ** The numerical fit (lines 60-73) *)

(** The transformer is created for the requested method and fitted, once, on
    what [load_num_feats] returns for the training table. *)
Lemma fit_numerical_inv (train_df train2 : DataFrame) (numerical_cols : ColSpec)
    (method : string) (t : option Transformer) :
  fit_numerical_ train_df numerical_cols method = Ok (train2, t) ->
  match t with
  | None => method = "none" /\ train2 = train_df
  | Some fitted =>
      method <> "none" /\
      exists unfitted nf feats,
        convert_to_func numerical_cols = Ok nf /\
        load_num_feats train_df nf = Ok (train2, Some feats) /\
        fit unfitted feats = Ok fitted
  end.
Proof.
  unfold fit_numerical. destruct (String.eqb method "none") eqn:E; simpl.
  - intros H. inversion H; subst. apply String.eqb_eq in E. tauto.
  - intros H. inv_bind H. rename a into unfitted. inv_bind H. rename a into nf.
    inv_bind H. destruct a as [df1 num]. inv_bind H. inversion H; subst. clear H.
    split; [intros ->; discriminate|].
    destruct num as [feats|]; [|discriminate].
    exists unfitted, nf, feats. tauto.
Qed.

Lemma fit_numerical_rows (train_df train2 : DataFrame) (numerical_cols : ColSpec)
    (method : string) (t : option Transformer) :
  fit_numerical_ train_df numerical_cols method = Ok (train2, t) ->
  length (rows train2) = length (rows train_df).
Proof.
  intros H. apply fit_numerical_inv in H. destruct t as [fitted|].
  - destruct H as [_ (unfitted & nf & feats & _ & Hnum & _)].
    now apply load_num_feats_rows in Hnum.
  - destruct H as [_ ->]. reflexivity.
Qed.


Section Config.

Variable text_cols : ColSpec.
Variable label_col : string.
Variable label_list : option (list string).
Variable numerical_cols : ColSpec.
Variable sep_text_token_str : string.
Variable empty_text_values : option (list string).
Variable replace_empty_text : option string.
Variable max_token_length : option nat.

(** One call of [load_data], with the arguments that change between calls. *)
Local Abbreviation run df cc et t debug :=
  (load_data_ df text_cols label_col label_list cc numerical_cols
              sep_text_token_str et t empty_text_values replace_empty_text
              max_token_length debug).

Lemma load_data_debug (df : DataFrame) (cc : ColSpec) (et : option string)
    (t : option Transformer) :
  run df cc et t true = run (pd.head 50 df) cc et t false.
Proof. reflexivity. Qed.

Lemma agg_rows_nonempty (func : list Cell -> list string) (df : DataFrame)
    (x : list string) (l : list (list string)) :
  agg_rows func df = Ok (x :: l) -> rows df <> [].
Proof.
  unfold agg_rows. destruct (rows df); [discriminate | discriminate].
Qed.

(** The steps behind a call of [load_data] that returns. *)
Lemma load_data_inv (df : DataFrame) (cc : ColSpec) (et : option string)
    (t t' : option Transformer) (debug : bool) (ds : TorchTextDataset TokOut) :
  run df cc et t debug = Ok (t', ds) ->
  exists tf cf nf cat num,
    convert_to_func text_cols = Ok tf /\
    convert_to_func cc = Ok cf /\
    convert_to_func numerical_cols = Ok nf /\
    load_cat_feats_ (if debug then pd.head 50 df else df) cf et = Ok cat /\
    load_num_feats (if debug then pd.head 50 df else df) nf = Ok (ds_df ds, num) /\
    normalize_ num t = Ok (t', ds_numerical_feats ds) /\
    ds_cat_feats ds = cat /\
    pd.getitem_col (ds_df ds) label_col = Ok (ds_labels ds) /\
    ds_label_list ds = label_list /\
    rows (ds_df ds) <> [].
Proof.
  unfold load_data. intros H.
  inv_bind H. rename a into tf, Ha into Htf.
  inv_bind H. rename a into cf, Ha into Hcf.
  inv_bind H. rename a into nf, Ha into Hnf.
  inv_bind H. destruct a as [[df1 cat] num].
  unfold load_cat_and_num_feats in Ha.
  inv_bind Ha. rename a into cat0, Ha0 into Hcat.
  inv_bind Ha. destruct a as [df1' num']. inversion Ha; subst df1' cat0 num'. clear Ha.
  rename Ha0 into Hnum.
  inv_bind H. destruct a as [t1 num1]. rename Ha into Hnorm.
  inv_bind H. rename a into sub, Ha into Hsub.
  inv_bind H. rename a into texts, Ha into Hagg.
  inv_bind H. rename Ha into Hex.
  inv_bind H. rename a0 into labels, Ha into Hlab.
  inversion H; subst t' ds. clear H. simpl.
  exists tf, cf, nf, cat, num. repeat split; try assumption.
  intros Hrows. destruct texts as [|x texts]; [simpl in Hex; discriminate|].
  apply agg_rows_nonempty in Hagg. apply Hagg.
  rewrite getitem_matching in Hsub. inversion Hsub; subst sub. simpl.
  now rewrite Hrows.
Qed.

Lemma normalize_frame (num num' : option Matrix) (t t' : option Transformer) :
  (forall s m s' m', transform s m = Ok (s', m') -> s' = s) ->
  normalize_ num t = Ok (t', num') -> t' = t.
Proof.
  intros Hframe. unfold normalize_numerical_feats.
  destruct num as [m|], t as [s|]; intros H; try (now inversion H).
  inv_bind H. destruct a as [s' m']. inversion H; subst. f_equal.
  eapply Hframe; eassumption.
Qed.

Lemma load_data_rows (df : DataFrame) (cc : ColSpec) (et : option string)
    (t t' : option Transformer) (debug : bool) (ds : TorchTextDataset TokOut) :
  run df cc et t debug = Ok (t', ds) ->
  length (rows (ds_df ds)) =
    (if debug then Nat.min 50 (length (rows df)) else length (rows df)) /\
  length (ds_labels ds) = length (rows (ds_df ds)).
Proof.
  intros H. apply load_data_inv in H.
  destruct H as (tf & cf & nf & cat & num & _ & _ & _ & _ & Hnum & _ & _ & Hlab & _).
  split.
  - apply load_num_feats_rows in Hnum. rewrite Hnum.
    destruct debug; [|reflexivity]. unfold pd.head. cbn [rows].
    apply length_firstn.
  - unfold pd.getitem_col in Hlab. destruct (mem label_col _); [|discriminate].
    inversion Hlab. unfold pd.col_values. now rewrite length_map.
Qed.


(** ** The whole call ([load_data_from_folder]) *)

Section Calls.

Variable train_df test_df : DataFrame.
Variable val_df : option DataFrame.
Variable categorical_cols : ColSpec.
Variable categorical_encode_type : option string.
Variable numerical_transformer_method : string.
Variable debug : bool.

Local Abbreviation call :=
  (load_data_from_folder_ train_df val_df test_df text_cols label_col label_list
     categorical_cols numerical_cols sep_text_token_str categorical_encode_type
     numerical_transformer_method empty_text_values replace_empty_text
     max_token_length debug).

(** The steps behind a call that returns. *)
Lemma load_data_from_folder_inv (tfin : option Transformer)
    (dtr dte : TorchTextDataset TokOut) (dv : option (TorchTextDataset TokOut)) :
  call = Ok (tfin, (dtr, dv, dte)) ->
  exists train1 val1 test1 cc1 et1 train2 t0 t1 t2,
    union_fit_ train_df val_df test_df categorical_cols categorical_encode_type =
      Ok (train1, val1, test1, cc1, et1) /\
    fit_numerical_ train1 numerical_cols numerical_transformer_method =
      Ok (train2, t0) /\
    run train2 cc1 et1 t0 debug = Ok (t1, dtr) /\
    run test1 cc1 et1 t1 debug = Ok (t2, dte) /\
    match val1 with
    | Some v => exists d, run v cc1 et1 t2 debug = Ok (tfin, d) /\ dv = Some d
    | None => tfin = t2 /\ dv = None
    end.
Proof.
  unfold load_data_from_folder. intros H.
  inv_bind H. destruct a as [[[[train1 val1] test1] cc1] et1].
  inv_bind H. destruct a as [train2 t0].
  inv_bind H. destruct a as [t1 d1].
  inv_bind H. destruct a as [t2 d2].
  inv_bind H. destruct a as [t3 d3].
  inversion H; subst. clear H.
  exists train1, val1, test1, cc1, et1, train2, t0, t1, t2.
  repeat (split; [assumption|]).
  destruct val1 as [v|].
  - inv_bind Ha3. destruct a as [t d]. inversion Ha3; subst. eauto.
  - inversion Ha3; subst. tauto.
Qed.

End Calls.


(** *** The transformer is only read by the per-split pass *)

Lemma load_data_frame (df : DataFrame) (cc : ColSpec) (et : option string)
    (t t' : option Transformer) (debug : bool) (ds : TorchTextDataset TokOut) :
  (forall s m s' m', transform s m = Ok (s', m') -> s' = s) ->
  run df cc et t debug = Ok (t', ds) -> t' = t.
Proof.
  intros Hframe H. apply load_data_inv in H.
  destruct H as (tf & cf & nf & cat & num & _ & _ & _ & _ & _ & Hnorm & _).
  eapply normalize_frame; eassumption.
Qed.

Lemma same_rows_refl (replaced : string -> bool) (d : DataFrame) :
  same_rows replaced d d.
Proof. split; reflexivity. Qed.

(** The training table that leaves the union block has the rows of the
    training split when the block is skipped, or when no label occurs twice
    across the splits. *)
Lemma union_fit_train_rows (train_df test_df train1 test1 : DataFrame)
    (val_df val1 : option DataFrame) (cc cc1 : ColSpec) (et et1 : option string) :
  union_fit_ train_df val_df test_df cc et = Ok (train1, val1, test1, cc1, et1) ->
  is_encode_type et "ohe" || is_encode_type et "binary" = false \/
  NoDup (index train_df ++ match val_df with Some v => index v | None => [] end ++
         index test_df) ->
  same_rows (replaced_by et cc) train_df train1.
Proof.
  intros Hu Hsafe.
  destruct (is_encode_type et "ohe" || is_encode_type et "binary") eqn:Es.
  - destruct Hsafe as [Hsafe|Hnd]; [discriminate|].
    now destruct (union_fit_same_rows _ _ _ _ _ Es Hnd Hu) as (H1 & _).
  - rewrite union_fit_skipped in Hu by assumption. inversion Hu; subst.
    apply same_rows_refl.
Qed.

(** One fit per call.  The numerical transformer is fitted once, on the
    numerical columns of the training table that the union block hands on;
    that table has the rows of the training split when the scheme is neither
    one-hot nor binary, or when no index label occurs twice across the
    splits.  The three per-split passes only call [transform], so that,
    [transform] leaving the fitted object as it is (scikit-learn's contract),
    each pass receives the fitted transformer and returns it unchanged: the
    transformer at the end of the call is the one [fit] returned. *)
Theorem numerical_transformer_fit_once
    (train_df test_df : DataFrame) (val_df : option DataFrame)
    (categorical_cols : ColSpec) (categorical_encode_type : option string)
    (numerical_transformer_method : string) (debug : bool)
    (tfin : option Transformer)
    (dtr dte : TorchTextDataset TokOut) (dv : option (TorchTextDataset TokOut)) :
  (forall s m s' m', transform s m = Ok (s', m') -> s' = s) ->
  load_data_from_folder_ train_df val_df test_df text_cols label_col label_list
    categorical_cols numerical_cols sep_text_token_str categorical_encode_type
    numerical_transformer_method empty_text_values replace_empty_text
    max_token_length debug = Ok (tfin, (dtr, dv, dte)) ->
  exists train1 val1 test1 cc1 et1 train2,
    union_fit_ train_df val_df test_df categorical_cols categorical_encode_type =
      Ok (train1, val1, test1, cc1, et1) /\
    (is_encode_type categorical_encode_type "ohe" ||
     is_encode_type categorical_encode_type "binary" = false \/
     NoDup (index train_df ++
            match val_df with Some v => index v | None => [] end ++
            index test_df) ->
     same_rows (replaced_by categorical_encode_type categorical_cols)
               train_df train1) /\
    fit_numerical_ train1 numerical_cols numerical_transformer_method =
      Ok (train2, tfin) /\
    match tfin with
    | None => numerical_transformer_method = "none"
    | Some fitted =>
        exists unfitted nf feats,
          convert_to_func numerical_cols = Ok nf /\
          load_num_feats train1 nf = Ok (train2, Some feats) /\
          fit unfitted feats = Ok fitted
    end /\
    run train2 cc1 et1 tfin debug = Ok (tfin, dtr) /\
    run test1 cc1 et1 tfin debug = Ok (tfin, dte) /\
    match val1 with
    | Some v => exists d, run v cc1 et1 tfin debug = Ok (tfin, d) /\ dv = Some d
    | None => dv = None
    end.
Proof.
  intros Hframe H. apply load_data_from_folder_inv in H.
  destruct H as (train1 & val1 & test1 & cc1 & et1 & train2 & t0 & t1 & t2 &
                 Hu & Hfit & Htr & Hte & Hval).
  pose proof (load_data_frame _ _ _ _ _ Hframe Htr) as E1. subst t1.
  pose proof (load_data_frame _ _ _ _ _ Hframe Hte) as E2. subst t2.
  assert (tfin = t0) as ->.
  { destruct val1 as [v|].
    - destruct Hval as (d & Hd & _). eapply load_data_frame; eassumption.
    - tauto. }
  exists train1, val1, test1, cc1, et1, train2.
  split; [assumption|]. split; [intros Hsafe; eapply union_fit_train_rows; eassumption|].
  split; [assumption|]. split.
  - pose proof (fit_numerical_inv _ _ _ Hfit) as Hinv. destruct t0 as [fitted|].
    + tauto.
    + tauto.
  - split; [assumption|]. split; [assumption|].
    destruct val1 as [v|]; [assumption | tauto].
Qed.

(** *** Debug mode *)

(** C2, as amended.  With [debug=True] every per-split pass starts by cutting
    its table to the first 50 rows, so all that [load_data] computes is
    computed from the cut table, and the bundle has [min 50 n] rows for a
    table of [n] rows.  The union categorical fit and the fit of the
    numerical transformer come before the per-split passes and see the whole
    tables.  The tables handed to the per-split passes have as many rows as
    the splits when the scheme is neither one-hot nor binary, or when no
    index label occurs twice across the splits. *)
Theorem debug_truncates_in_load_data :
  (forall df cc et t,
     run df cc et t true = run (pd.head 50 df) cc et t false) /\
  (forall df cc et t t' ds,
     run df cc et t true = Ok (t', ds) ->
     length (rows (ds_df ds)) = Nat.min 50 (length (rows df)) /\
     length (ds_labels ds) = Nat.min 50 (length (rows df))) /\
  (forall train_df val_df test_df categorical_cols categorical_encode_type
          numerical_transformer_method tfin dtr dv dte,
     load_data_from_folder_ train_df val_df test_df text_cols label_col label_list
       categorical_cols numerical_cols sep_text_token_str categorical_encode_type
       numerical_transformer_method empty_text_values replace_empty_text
       max_token_length true = Ok (tfin, (dtr, dv, dte)) ->
     (exists train1 val1 test1 cc1 et1 train2 t0,
        union_fit_ train_df val_df test_df categorical_cols categorical_encode_type =
          Ok (train1, val1, test1, cc1, et1) /\
        fit_numerical_ train1 numerical_cols numerical_transformer_method =
          Ok (train2, t0)) /\
     (is_encode_type categorical_encode_type "ohe" ||
      is_encode_type categorical_encode_type "binary" = false \/
      NoDup (index train_df ++
             match val_df with Some v => index v | None => [] end ++
             index test_df) ->
      length (rows (ds_df dtr)) = Nat.min 50 (length (rows train_df)) /\
      length (rows (ds_df dte)) = Nat.min 50 (length (rows test_df)) /\
      match val_df, dv with
      | Some v, Some d => length (rows (ds_df d)) = Nat.min 50 (length (rows v))
      | None, None => True
      | _, _ => False
      end)).
Proof.
  split; [intros; apply load_data_debug|]. split.
  - intros df cc et t t' ds H. apply load_data_rows in H. destruct H as [H1 H2].
    rewrite H2. auto.
  - intros train_df val_df test_df cc et method tfin dtr dv dte H.
    apply load_data_from_folder_inv in H.
    destruct H as (train1 & val1 & test1 & cc1 & et1 & train2 & t0 & t1 & t2 &
                   Hu & Hfit & Htr & Hte & Hval).
    split; [exists train1, val1, test1, cc1, et1, train2, t0; tauto|].
    intros Hsafe.
    assert (Hlen : length (rows train1) = length (rows train_df) /\
                   length (rows test1) = length (rows test_df) /\
                   match val_df, val1 with
                   | Some v, Some v' => length (rows v') = length (rows v)
                   | None, None => True
                   | _, _ => False
                   end).
    { destruct (is_encode_type et "ohe" || is_encode_type et "binary") eqn:Es.
      - destruct Hsafe as [Hsafe|Hnd]; [discriminate|].
        destruct (union_fit_same_rows _ _ _ _ _ Es Hnd Hu) as (H1 & H2 & H3).
        split; [eapply same_rows_length; eassumption|].
        split; [eapply same_rows_length; eassumption|].
        destruct val_df, val1; try contradiction; [|exact I].
        eapply same_rows_length; eassumption.
      - rewrite union_fit_skipped in Hu by assumption. inversion Hu; subst.
        destruct val1; auto. }
    destruct Hlen as (L1 & L2 & L3).
    apply fit_numerical_rows in Hfit.
    apply load_data_rows in Htr. apply load_data_rows in Hte.
    destruct Htr as [Htr _], Hte as [Hte _].
    split; [congruence|]. split; [congruence|].
    destruct val_df as [v|], val1 as [v'|]; try contradiction.
    + destruct Hval as (d & Hd & ->). apply load_data_rows in Hd.
      destruct Hd as [Hd _]. congruence.
    + destruct Hval as [_ ->]. exact I.
Qed.

(** *** Column specifications *)

Lemma get_matching_cols_none (df : DataFrame) :
  get_matching_cols df (fun _ _ => false) = [].
Proof.
  unfold get_matching_cols. induction (columns df) as [|c l IH]; simpl; auto.
Qed.

(** C7, as amended.  [None] selects no column; a plain function ([def] or
    [lambda]) is used as it is; a list or a set selects the columns it
    names; every other value, callable objects that are not plain functions
    included, makes [convert_to_func] raise [AssertionError], and in
    [load_data] it does so for each of the three specs before a column of the
    table is read. *)
Theorem column_spec_resolution :
  (exists f, convert_to_func SpecNone = Ok f /\
             forall df, get_matching_cols df f = []) /\
  (forall g, convert_to_func (SpecFunction g) = Ok g) /\
  (forall l, exists f,
      convert_to_func (SpecList l) = Ok f /\
      convert_to_func (SpecSet l) = Ok f /\
      forall df, get_matching_cols df f = filter (fun c => mem c l) (columns df)) /\
  (forall arg, accepted_spec arg = false ->
               convert_to_func arg = Raise AssertionError) /\
  (forall df cc et t debug,
      accepted_spec text_cols && accepted_spec cc && accepted_spec numerical_cols
        = false ->
      run df cc et t debug = Raise AssertionError).
Proof.
  split; [eexists; split; [reflexivity | apply get_matching_cols_none]|].
  split; [reflexivity|].
  split; [intros l; eexists; repeat split; reflexivity|].
  split.
  - intros [| | | | |]; simpl; intros H; try discriminate; reflexivity.
  - intros df cc et t debug H. unfold load_data.
    destruct text_cols; simpl in *; try reflexivity;
      destruct cc; simpl in *; try reflexivity;
      destruct numerical_cols; simpl in *; try reflexivity; discriminate.
Qed.

(** *** Empty tables *)

(** C9. [load_data] does not return on a table without rows: the first
    aggregated text is read from an empty list. *)
Theorem load_data_empty_table_fails (df : DataFrame) (cc : ColSpec)
    (et : option string) (t : option Transformer) (debug : bool) :
  rows df = [] ->
  exists e, run df cc et t debug = Raise e.
Proof.
  intros Hrows.
  destruct (run df cc et t debug) as [[t' ds]|e] eqn:E; [|eauto].
  exfalso. pose proof (load_data_rows _ _ _ _ _ E) as [Hlen _].
  apply load_data_inv in E.
  destruct E as (tf & cf & nf & cat & num & _ & _ & _ & _ & _ & _ & _ & _ & _ & Hne).
  rewrite Hrows in Hlen. destruct (rows (ds_df ds)); [now apply Hne|].
  destruct debug; simpl in Hlen; discriminate.
Qed.

(** *** The table kept in the bundle *)

(** C10. [load_num_feats] writes the imputed values into the table it is
    given: the table stored in the bundle, and the training table that comes
    out of the fit of the transformer, hold the imputed numerical columns,
    and every other cell as it was. *)
Theorem imputation_written_back :
  (forall df f df' feats,
     load_num_feats df f = Ok (df', feats) -> imputed_from df df' f) /\
  (forall df cc et t t' debug ds,
     run df cc et t debug = Ok (t', ds) ->
     exists nf, convert_to_func numerical_cols = Ok nf /\
                imputed_from (if debug then pd.head 50 df else df) (ds_df ds) nf) /\
  (forall train_df train2 method fitted,
     fit_numerical_ train_df numerical_cols method = Ok (train2, Some fitted) ->
     exists nf, convert_to_func numerical_cols = Ok nf /\
                imputed_from train_df train2 nf).
Proof.
  split; [intros df f df' feats H; now apply load_num_feats_cells in H|]. split.
  - intros df cc et t t' debug ds H. apply load_data_inv in H.
    destruct H as (tf & cf & nf & cat & num & _ & _ & Hnf & _ & Hnum & _).
    exists nf. split; [assumption|]. now apply load_num_feats_cells in Hnum.
  - intros train_df train2 method fitted H. apply fit_numerical_inv in H.
    destruct H as [_ (unfitted & nf & feats & Hnf & Hnum & _)].
    exists nf. split; [assumption|]. now apply load_num_feats_cells in Hnum.
Qed.

(** *** Absent validation table *)

Lemma get_dummies_index (str_of : Cell -> string) (data data' : DataFrame)
    (cc : ColSpec) :
  get_dummies str_of data cc = Ok data' -> index data' = index data.
Proof.
  intros H.
  assert (Hgen : forall l, encode_dummies str_of data l = Ok data' ->
                           index data' = index data).
  { intros l Hl. apply encode_dummies_agree in Hl. unfold index.
    eapply Forall2_fst. eassumption. }
  destruct cc; simpl in H; try discriminate; eapply Hgen; eassumption.
Qed.

(** C8. Without a validation table the union block stacks the training and
    the test table only: when a union scheme applies, the encoding is fitted
    on [pd.concat([train_df, test_df])] and the two tables that the block
    returns are cut out of the encoded table (whose rows, under the one-hot
    scheme, are those of the training table followed by those of the test
    table); otherwise the two tables are returned as they are.  The block
    returns no validation table, and the call, when the passes over the
    training and the test table return, returns with an absent validation
    bundle. *)
Theorem absent_validation_bundle
    (train_df test_df train1 test1 train2 : DataFrame) (val1 : option DataFrame)
    (categorical_cols cc1 : ColSpec) (categorical_encode_type et1 : option string)
    (numerical_transformer_method : string) (debug : bool)
    (t0 t1 t2 : option Transformer) (dtr dte : TorchTextDataset TokOut) :
  union_fit_ train_df None test_df categorical_cols categorical_encode_type =
    Ok (train1, val1, test1, cc1, et1) ->
  fit_numerical_ train1 numerical_cols numerical_transformer_method =
    Ok (train2, t0) ->
  run train2 cc1 et1 t0 debug = Ok (t1, dtr) ->
  run test1 cc1 et1 t1 debug = Ok (t2, dte) ->
  (if is_encode_type categorical_encode_type "ohe" ||
      is_encode_type categorical_encode_type "binary"
   then
     exists data',
       (if is_encode_type categorical_encode_type "ohe" then
          data_df <- get_dummies (astype_str str_of_num)
                                 (pd.concat_rows [train_df; test_df])
                                 categorical_cols ;;
          cols <- ohe_columns data_df categorical_cols ;;
          Ok (data_df, SpecList cols)
        else
          '(vals, feat_names) <-
             CategoricalFeatures (pd.concat_rows [train_df; test_df])
                                 categorical_cols (Some "binary") ;;
          cat_df <- pd.DataFrame_of vals feat_names ;;
          data_df <- pd.concat_cols (pd.concat_rows [train_df; test_df]) cat_df ;;
          Ok (data_df, SpecList feat_names)) = Ok (data', cc1) /\
       pd.loc data' (index train_df) = Ok train1 /\
       pd.loc data' (index test_df) = Ok test1 /\
       (is_encode_type categorical_encode_type "ohe" = true ->
        index data' = index train_df ++ index test_df)
   else train1 = train_df /\ test1 = test_df /\ cc1 = categorical_cols) /\
  union_table train_df None test_df = pd.concat_rows [train_df; test_df] /\
  index (pd.concat_rows [train_df; test_df]) = index train_df ++ index test_df /\
  val1 = None /\
  load_data_from_folder_ train_df None test_df text_cols label_col label_list
    categorical_cols numerical_cols sep_text_token_str categorical_encode_type
    numerical_transformer_method empty_text_values replace_empty_text
    max_token_length debug = Ok (t2, (dtr, None, dte)).
Proof.
  intros Hu Hfit Htr Hte.
  assert (Hidx : index (pd.concat_rows [train_df; test_df]) =
                 index train_df ++ index test_df)
    by apply (index_union_table train_df test_df None).
  split.
  { destruct (is_encode_type categorical_encode_type "ohe" ||
              is_encode_type categorical_encode_type "binary") eqn:Es.
    - pose proof Hu as Hinv. apply union_fit_inv in Hinv; [|assumption].
      destruct Hinv as (data' & Henc & Hl1 & Hl2 & _).
      exists data'. split; [exact Henc|]. split; [assumption|].
      split; [assumption|]. intros Hohe. rewrite Hohe in Henc.
      inv_bind Henc. apply get_dummies_index in Ha.
      inv_bind Henc. inversion Henc; subst. now rewrite Ha.
    - rewrite union_fit_skipped in Hu by assumption. now inversion Hu. }
  split; [reflexivity|]. split; [exact Hidx|].
  assert (val1 = None) as ->.
  { pose proof Hu as Hv. apply union_fit_val in Hv. now apply Hv. }
  split; [reflexivity|].
  unfold load_data_from_folder. rewrite Hu. cbn [bind]. rewrite Hfit. cbn [bind].
  rewrite Htr. cbn [bind]. rewrite Hte. reflexivity.
Qed.

End Config.


(** ** Properties of the union fit *)

(** The re-split on labels that occur once.  When the scheme is one-hot or
    binary and no index label occurs twice across the splits that are
    present, cutting the encoded union by the index of a split returns the
    rows of that split: the same
    labels in the same order, and in every column that the encoding did not
    replace the value the split had. *)
Theorem resplit_recovers_splits (train_df test_df train' test' : DataFrame)
    (val_df val' : option DataFrame) (categorical_cols cc' : ColSpec)
    (categorical_encode_type et' : option string) :
  is_encode_type categorical_encode_type "ohe" ||
  is_encode_type categorical_encode_type "binary" = true ->
  NoDup (index train_df ++ match val_df with Some v => index v | None => [] end ++
         index test_df) ->
  union_fit_ train_df val_df test_df categorical_cols categorical_encode_type =
    Ok (train', val', test', cc', et') ->
  same_rows (replaced_by categorical_encode_type categorical_cols) train_df train' /\
  same_rows (replaced_by categorical_encode_type categorical_cols) test_df test' /\
  match val_df, val' with
  | Some v, Some v' =>
      same_rows (replaced_by categorical_encode_type categorical_cols) v v'
  | None, None => True
  | _, _ => False
  end.
Proof. apply union_fit_same_rows. Qed.

Lemma loc_columns (df d : DataFrame) (labels : list Label) :
  pd.loc df labels = Ok d -> columns d = columns df.
Proof.
  unfold pd.loc. intros H. inv_bind H. now inversion H.
Qed.

Lemma get_matching_cols_names (df : DataFrame) (names : list string) :
  get_matching_cols df (fun _ x => mem x names) =
  filter (fun c => mem c names) (columns df).
Proof. reflexivity. Qed.

(** C4. After the one-hot union fit the three tables have the columns of the
    encoded union, [categorical_cols] is one list of names and the scheme is
    [None]: the per-split passes, in debug mode or not, select the same
    categorical feature names in the same order for every split. *)
Theorem ohe_feature_names_shared (train_df test_df train' test' : DataFrame)
    (val_df val' : option DataFrame) (categorical_cols cc' : ColSpec)
    (et' : option string) :
  union_fit_ train_df val_df test_df categorical_cols (Some "ohe") =
    Ok (train', val', test', cc', et') ->
  et' = None /\
  exists names f,
    cc' = SpecList names /\
    convert_to_func cc' = Ok f /\
    (forall debug : bool,
       get_matching_cols (if debug then pd.head 50 test' else test') f =
       get_matching_cols (if debug then pd.head 50 train' else train') f) /\
    (forall (debug : bool) v',
       val' = Some v' ->
       get_matching_cols (if debug then pd.head 50 v' else v') f =
       get_matching_cols (if debug then pd.head 50 train' else train') f).
Proof.
  unfold union_fit. simpl. intros H.
  inv_bind H. destruct a as [data' cc1]. rename Ha into Henc.
  inv_bind Henc. rename a into d1. clear Ha.
  inv_bind Henc. rename a into names. clear Ha.
  inversion Henc; subst d1 cc1. clear Henc.
  inv_bind H. rename a into tr1, Ha into Htr.
  inv_bind H. rename a into v1, Ha into Hv.
  inv_bind H. rename a into te1, Ha into Hte.
  inversion H; subst. clear H.
  split; [reflexivity|].
  exists names, (fun _ x => mem x names).
  split; [reflexivity|]. split; [reflexivity|].
  apply loc_columns in Htr, Hte.
  split.
  - intros debug. rewrite !get_matching_cols_names.
    destruct debug; cbn [pd.head columns]; congruence.
  - intros debug v' Hv'. subst val'. destruct val_df as [v|]; [|discriminate].
    inv_bind Hv. inversion Hv; subst a. apply loc_columns in Ha.
    rewrite !get_matching_cols_names.
    destruct debug; cbn [pd.head columns]; congruence.
Qed.

End Properties.

(** ** Properties of the functions without collaborators *)

Lemma load_num_feats_numeric (df df' : DataFrame) (f : ColFunc)
    (feats : option Matrix) (c : string) :
  load_num_feats df f = Ok (df', feats) ->
  In c (get_matching_cols df f) ->
  pd.median_cells (pd.col_values df c) = Ok (column_median df c).
Proof.
  unfold load_num_feats. rewrite getitem_matching. simpl.
  intros H Hc. inv_bind H. unfold pd.median in Ha. simpl in Ha.
  pose proof (median_series _ _ Ha c Hc) as Hm. simpl in Hm.
  rewrite col_values_getitem in Hm by now apply mem_In.
  unfold column_median. now rewrite Hm.
Qed.

(** C5. Whatever table [load_num_feats] is given (training, validation or
    test), on numerical columns it returns, and the matrix it returns holds
    the selected columns of that table in which every missing value has been
    replaced by the median of its own column in that same table. *)
Theorem median_imputation_own_column (df : DataFrame) (f : ColFunc) :
  (forall c, In c (get_matching_cols df f) ->
             existsb is_str (pd.col_values df c) = false) ->
  (forall c, In c (get_matching_cols df f) ->
             pd.median_cells (pd.col_values df c) = Ok (column_median df c)) /\
  exists df',
    load_num_feats df f =
    Ok (df',
        if Nat.eqb (length (get_matching_cols df f)) 0 then None
        else Some (map (fun r =>
                          map (fun c => if is_nan (cell (columns df) (snd r) c)
                                        then column_median df c
                                        else cell (columns df) (snd r) c)
                              (get_matching_cols df f))
                       (rows df))).
Proof.
  intros Hnum. destruct (load_num_feats_total df f Hnum) as [[df' feats] H].
  split.
  - intros c Hc. eapply load_num_feats_numeric; eassumption.
  - exists df'. rewrite H. apply load_num_feats_ok in H. destruct H as [_ ->].
    reflexivity.
Qed.

(** C6. The worked example of text aggregation: the sentinel values are
    dropped, or replaced, before the survivors are joined with the separator
    between single spaces. *)
Theorem text_aggregation_example (str_of_num : Q -> string) :
  let row := [CStr "nan"; CStr "hello"; CStr "None"] in
  let empty_text_values := ["nan"; "None"] in
  agg_text_columns_func str_of_num empty_text_values None row = ["hello"] /\
  join_text "|" (agg_text_columns_func str_of_num empty_text_values None row)
    = "hello" /\
  agg_text_columns_func str_of_num empty_text_values (Some "MISSING") row
    = ["MISSING"; "hello"; "MISSING"] /\
  join_text "|" (agg_text_columns_func str_of_num empty_text_values
                                       (Some "MISSING") row)
    = "MISSING | hello | MISSING".
Proof. repeat split. Qed.


(** * Worked runs

    The collaborators of the runs below are the example ones: the
    transformer records the sample it is fitted on. *)

Lemma demo_transform_frame (s m s' m' : Matrix) :
  demo_transform s m = Ok (s', m') -> s' = s.
Proof. unfold demo_transform. intros H. now inversion H. Qed.

Lemma demo_labels_distinct :
  NoDup (index demo_train ++ index demo_val ++ index demo_test).
Proof. apply nodupb_NoDup. reflexivity. Defined.

(** The re-split on three splits with distinct labels. *)
Lemma resplit_recovers_splits_witness :
  match demo_union_fit demo_train (Some demo_val) demo_test
                       (SpecList ["cat"]) (Some "ohe") with
  | Ok (train', val', test', _, _) =>
      same_rows (replaced_by (Some "ohe") (SpecList ["cat"])) demo_train train' /\
      same_rows (replaced_by (Some "ohe") (SpecList ["cat"])) demo_test test' /\
      match val' with
      | Some v' => same_rows (replaced_by (Some "ohe") (SpecList ["cat"])) demo_val v'
      | None => False
      end
  | Raise _ => False
  end.
Proof.
  destruct (demo_union_fit demo_train (Some demo_val) demo_test
                           (SpecList ["cat"]) (Some "ohe"))
    as [[[[[train' val'] test'] cc'] et']|e] eqn:E.
  - apply resplit_recovers_splits in E;
      [exact E | reflexivity | exact demo_labels_distinct].
  - vm_compute in E. discriminate.
Defined.

(** C1.  Cutting the encoded union by the index of a split is meant to
    give back the rows of that split.  On a training and a test file that
    both number their rows from 0 (what [read_csv(..., index_col=0)] gives
    for two files written with their default index) the one-hot path of
    lines 38-56 returns, without an error, a training table of four rows:
    label 0 selects the row of the training file and the row of the test
    file, so the review "poor" of the test file sits among the training
    rows.  The binary path refuses the same tables at line 50.  The re-split
    of lines 53-56 is at fault, not the property. *)
Lemma resplit_shared_labels :
  exists train' test' cc' et',
    demo_union_fit demo_train None demo_test_from_0 (SpecList ["cat"]) (Some "ohe")
      = Ok (train', None, test', cc', et') /\
    index demo_train = [LInt 0; LInt 1; LInt 2] /\
    index train' = [LInt 0; LInt 0; LInt 1; LInt 2] /\
    cell_at train' 1 "text" = CStr "poor" /\
    cell_at demo_test_from_0 0 "text" = CStr "poor" /\
    ~ same_rows (replaced_by (Some "ohe") (SpecList ["cat"])) demo_train train' /\
    demo_union_fit demo_train None demo_test_from_0 (SpecList ["cat"]) (Some "binary")
      = Raise (LibraryError "concat").
Proof.
  do 4 eexists. split; [vm_compute; reflexivity|].
  split; [reflexivity|]. split; [reflexivity|]. split; [reflexivity|].
  split; [reflexivity|]. split; [|vm_compute; reflexivity].
  intros [H _]. vm_compute in H. discriminate.
Qed.

(** The call of the runs below: text column [text], label [y], categorical
    column [cat] under the one-hot scheme, numerical column [num] under the
    quantile transformer, separator [|]. *)
Local Abbreviation demo_call train_df val_df test_df debug :=
  (demo_load_data_from_folder train_df val_df test_df
     (SpecList ["text"]) "y" None (SpecList ["cat"]) (SpecList ["num"]) "|"
     (Some "ohe") "quantile_normal" None None None debug).

Local Abbreviation demo_run df cc et t debug :=
  (demo_load_data df (SpecList ["text"]) "y" None cc (SpecList ["num"]) "|"
     et t None None None debug).

(** A run of C2 as amended: a training table of 51 rows in debug mode. *)
Lemma debug_truncates_in_load_data_witness :
  match demo_call demo_train_51 None demo_test true with
  | Ok (_, (dtr, _, dte)) =>
      length (rows (ds_df dtr)) = 50 /\ length (rows (ds_df dte)) = 2
  | Raise _ => False
  end.
Proof.
  destruct (demo_call demo_train_51 None demo_test true)
    as [[tfin [[dtr dv] dte]]|e] eqn:E.
  - apply debug_truncates_in_load_data in E. destruct E as [_ E].
    destruct E as (H1 & H2 & _); [right; apply nodupb_NoDup; reflexivity|].
    split; [exact H1 | exact H2].
  - vm_compute in E. discriminate.
Defined.

(** C2 fails as stated: in debug mode the transformer is fitted on the 51
    rows of the training table, and the union fit sees the category of row
    51; only the bundle is cut to 50 rows.  Cutting the table before the call
    gives another result. *)
Lemma debug_fit_sees_all_rows :
  exists fitted dtr dte,
    demo_call demo_train_51 None demo_test true = Ok (Some fitted, (dtr, None, dte)) /\
    length (rows demo_train_51) = 51 /\
    length fitted = 51 /\
    cell_at demo_train_51 50 "cat" = CStr "w" /\
    mem "cat_w" (columns (ds_df dtr)) = true /\
    length (rows (ds_df dtr)) = 50 /\
    demo_call demo_train_51 None demo_test true <>
    demo_call (pd.head 50 demo_train_51) None demo_test true.
Proof.
  do 3 eexists. split; [vm_compute; reflexivity|].
  repeat (split; [reflexivity|]).
  intros H. vm_compute in H. discriminate.
Qed.

(** One fit in a call with three splits and the quantile transformer. *)
Lemma numerical_transformer_fit_once_witness :
  match demo_call demo_train (Some demo_val) demo_test false with
  | Ok (tfin, _) =>
      exists train1 train2,
        same_rows (replaced_by (Some "ohe") (SpecList ["cat"])) demo_train train1 /\
        demo_fit_numerical train1 (SpecList ["num"]) "quantile_normal" =
          Ok (train2, tfin) /\
        tfin = Some [[CNum 1]; [CNum (5 # 2)]; [CNum 4]]
  | Raise _ => False
  end.
Proof.
  destruct (demo_call demo_train (Some demo_val) demo_test false)
    as [[tfin [[dtr dv] dte]]|e] eqn:E.
  - pose proof E as E'.
    apply numerical_transformer_fit_once in E'; [|exact demo_transform_frame].
    destruct E' as (train1 & val1 & test1 & cc1 & et1 & train2 & _ & Hsame & Hfit & _).
    exists train1, train2.
    split; [apply Hsame; right; exact demo_labels_distinct|].
    split; [exact Hfit|].
    vm_compute in E. now inversion E.
  - vm_compute in E. discriminate.
Defined.

(** C3.  The numerical transformer is meant to be fitted on the training
    split alone.  On a training and a test file that both number their rows
    from 0, with the one-hot scheme, the training table that leaves lines
    53-56 holds the row of the test file, and the call fits the transformer
    on the matrix 1, 7, 4, 4: the 7 is the value of the test row, and the
    missing value is filled with 4, the median of 1, 7 and 4.  Fitted on the
    training split the matrix is 1, 5/2, 4, which is what lines 60-73 give
    when they receive the training table itself.  The fit of lines 60-73 does
    what the property says; the table it receives is wrong, through the
    re-split of lines 53-56. *)
Lemma fit_sees_test_row :
  exists fitted dsets,
    demo_call demo_train None demo_test_from_0 false = Ok (Some fitted, dsets) /\
    fitted = [[CNum 1]; [CNum 7]; [CNum 4]; [CNum 4]] /\
    pd.col_values demo_train "num" = [CNum 1; CNaN; CNum 4] /\
    pd.col_values demo_test_from_0 "num" = [CNum 7] /\
    exists train2,
      demo_fit_numerical demo_train (SpecList ["num"]) "quantile_normal"
        = Ok (train2, Some [[CNum 1]; [CNum (5 # 2)]; [CNum 4]]).
Proof.
  do 2 eexists. split; [vm_compute; reflexivity|].
  split; [reflexivity|]. split; [reflexivity|]. split; [reflexivity|].
  eexists. vm_compute. reflexivity.
Qed.

(** A run of C4. *)
Lemma ohe_feature_names_shared_witness :
  match demo_union_fit demo_train (Some demo_val) demo_test
                       (SpecList ["cat"]) (Some "ohe") with
  | Ok (train', val', test', cc', et') =>
      et' = None /\
      cc' = SpecList ["cat_x"; "cat_y"; "cat_z"; "cat_nan"] /\
      exists f,
        convert_to_func cc' = Ok f /\
        get_matching_cols test' f = get_matching_cols train' f
  | Raise _ => False
  end.
Proof.
  destruct (demo_union_fit demo_train (Some demo_val) demo_test
                           (SpecList ["cat"]) (Some "ohe"))
    as [[[[[train' val'] test'] cc'] et']|e] eqn:E.
  - pose proof E as E'.
    apply ohe_feature_names_shared in E'.
    destruct E' as (Het & names & f & Hcc & Hf & Hsame & _).
    split; [exact Het|]. split; [vm_compute in E; now inversion E|].
    exists f. split; [exact Hf|]. exact (Hsame false).
  - vm_compute in E. discriminate.
Defined.

(** A run of C5: the numerical column of the training table, 1, missing, 4. *)
Lemma median_imputation_own_column_witness :
  exists df',
    load_num_feats demo_train (fun _ c => String.eqb c "num") =
    Ok (df', Some [[CNum 1]; [CNum (5 # 2)]; [CNum 4]]).
Proof.
  destruct (@median_imputation_own_column demo_train
              (fun _ c => String.eqb c "num")) as [_ [df' H]].
  - intros c [<-|[]]. reflexivity.
  - exists df'. exact H.
Defined.

(** C7 fails as stated: a callable that is not a plain function (a
    [functools.partial] object, say) is not used as it is. *)
Lemma callable_object_rejected :
  let g : ColFunc := fun _ c => String.eqb c "text" in
  convert_to_func (SpecCallable g) = Raise AssertionError /\
  convert_to_func (SpecCallable g) <> Ok g /\
  demo_run demo_train (SpecCallable g) None None false = Raise AssertionError.
Proof.
  split; [reflexivity|]. split; [discriminate | reflexivity].
Qed.

(** A run of C7 as amended: a tuple in place of [numerical_cols]. *)
Lemma column_spec_resolution_witness :
  demo_load_data demo_train (SpecList ["text"]) "y" None (SpecList ["cat"])
                 SpecOther "|" None None None None None false
  = Raise AssertionError.
Proof.
  apply (proj2 (proj2 (proj2 (proj2
           (column_spec_resolution demo_str_of_num demo_tokenizer demo_transform
              passthrough_features (SpecList ["text"]) "y" None SpecOther "|"
              None None None))))).
  reflexivity.
Defined.

(** A run of C8: no validation table. *)
Lemma absent_validation_bundle_witness :
  exists tfin dtr dte,
    demo_call demo_train None demo_test false = Ok (tfin, (dtr, None, dte)) /\
    index (union_table demo_train None demo_test) =
      [LInt 0; LInt 1; LInt 2; LInt 4; LInt 5] /\
    exists data' test1,
      index data' = [LInt 0; LInt 1; LInt 2; LInt 4; LInt 5] /\
      pd.loc data' (index demo_test) = Ok test1 /\
      index test1 = [LInt 4; LInt 5].
Proof.
  eassert (Hu : demo_union_fit demo_train None demo_test (SpecList ["cat"])
                               (Some "ohe") = Ok (_, _, _, _, _))
    by (vm_compute; reflexivity).
  match type of Hu with
  | _ = Ok (?train1, _, _, _, _) =>
      eassert (Hfit : demo_fit_numerical train1 (SpecList ["num"]) "quantile_normal"
                      = Ok (_, _)) by (vm_compute; reflexivity)
  end.
  match type of Hu with
  | _ = Ok (_, _, _, ?cc1, ?et1) =>
      match type of Hfit with
      | _ = Ok (?train2, ?t0) =>
          eassert (Htr : demo_run train2 cc1 et1 t0 false = Ok (_, _))
            by (vm_compute; reflexivity)
      end
  end.
  match type of Hu with
  | _ = Ok (_, _, ?test1, ?cc1, ?et1) =>
      match type of Htr with
      | _ = Ok (?t1, _) =>
          eassert (Hte : demo_run test1 cc1 et1 t1 false = Ok (_, _))
            by (vm_compute; reflexivity)
      end
  end.
  pose proof Hte as Hall.
  eapply absent_validation_bundle in Hall; [|exact Hu|exact Hfit|exact Htr].
  destruct Hall as (Hunion & _ & Hidx & _ & Hcall).
  cbn in Hunion. destruct Hunion as (data' & _ & _ & Hloc & Hi).
  do 3 eexists. split; [exact Hcall|]. split; [exact Hidx|].
  exists data'. eexists. split; [exact (Hi eq_refl)|]. split; [exact Hloc | reflexivity].
Defined.

(** A run of C9: a table without rows. *)
Lemma load_data_empty_table_fails_witness :
  exists e, demo_run demo_empty (SpecList ["cat"]) None None false = Raise e.
Proof.
  apply load_data_empty_table_fails. reflexivity.
Defined.

(** The exception of that run is the [IndexError] of [texts_list[0]]. *)
Example load_data_empty_table_IndexError :
  demo_run demo_empty (SpecList ["cat"]) None None false = Raise IndexError.
Proof. reflexivity. Qed.

(** A run of C10: the training table after [load_num_feats]. *)
Lemma imputation_written_back_witness :
  match load_num_feats demo_train (fun _ c => String.eqb c "num") with
  | Ok (df', _) =>
      imputed_from demo_train df' (fun _ c => String.eqb c "num") /\
      cell_at demo_train 1 "num" = CNaN /\
      cell_at df' 1 "num" = CNum (5 # 2) /\
      cell_at df' 1 "text" = CStr "bad"
  | Raise _ => False
  end.
Proof.
  destruct (load_num_feats demo_train (fun _ c => String.eqb c "num"))
    as [[df' feats]|e] eqn:E.
  - split.
    + exact (proj1 (@imputation_written_back demo_str_of_num _ demo_tokenizer _
                      demo_new demo_new demo_fit demo_transform passthrough_features
                      (SpecList ["text"]) "y" None (SpecList ["num"]) "|"
                      None None None)
                   _ _ _ _ E).
    + vm_compute in E. inversion E. repeat split.
  - vm_compute in E. discriminate.
Defined.

(** * Further properties of the module *)

(** ** Column specifications, again *)

(** X1. A list or set spec selects exactly the columns of the table that it
    names: a name that the table does not have is ignored without an error,
    and neither the order of the names nor their repetition nor the choice
    between a list and a set matters. *)
Theorem spec_names_select_present_columns (l l' : list string) (df : DataFrame) :
  (forall c, In c l <-> In c l') ->
  exists f f',
    convert_to_func (SpecList l) = Ok f /\
    convert_to_func (SpecSet l') = Ok f' /\
    (forall c, In c (get_matching_cols df f) <-> In c (columns df) /\ In c l) /\
    get_matching_cols df f' = get_matching_cols df f.
Proof.
  intros Hsame. exists (fun _ x => mem x l), (fun _ x => mem x l').
  split; [reflexivity|]. split; [reflexivity|]. split.
  - intros c. unfold get_matching_cols. rewrite filter_In, mem_In. tauto.
  - unfold get_matching_cols. apply filter_ext. intros c.
    destruct (mem c l) eqn:E, (mem c l') eqn:E'; try reflexivity.
    + apply mem_In, Hsame, mem_In in E. congruence.
    + apply mem_In, Hsame, mem_In in E'. congruence.
Qed.

(** ** Text aggregation *)

Lemma agg_text_filter (str_of_num : Q -> string) (empty : list string)
    (texts : list Cell) :
  agg_text_columns_func str_of_num empty None texts =
  filter (fun t => negb (mem t empty)) (map (astype_str str_of_num) texts).
Proof.
  induction texts as [|x texts IH]; simpl; [reflexivity|].
  destruct (negb (mem (astype_str str_of_num x) empty)); now rewrite IH.
Qed.

(** X2. Text aggregation of one row.  Without a replacement, the survivors
    are the stringified values that are no sentinel, in column order, so no
    sentinel is left; with a replacement there is one entry per text column.
    A row whose values are all sentinels and no replacement give the empty
    text, whatever the separator. *)
Theorem agg_text_survivors (str_of_num : Q -> string) (empty : list string)
    (texts : list Cell) :
  agg_text_columns_func str_of_num empty None texts =
    filter (fun t => negb (mem t empty)) (map (astype_str str_of_num) texts) /\
  (forall t, In t (agg_text_columns_func str_of_num empty None texts) ->
             ~ In t empty) /\
  (forall r, length (agg_text_columns_func str_of_num empty (Some r) texts) =
             length texts) /\
  (forall sep,
     (forall x, In x texts -> In (astype_str str_of_num x) empty) ->
     join_text sep (agg_text_columns_func str_of_num empty None texts) = "").
Proof.
  split; [apply agg_text_filter|]. split; [|split].
  - intros t Ht. rewrite agg_text_filter in Ht. apply filter_In in Ht.
    destruct Ht as [_ Ht]. intros Hin. apply mem_In in Hin.
    rewrite Hin in Ht. discriminate.
  - intros r. induction texts as [|x texts IH]; simpl; [reflexivity|].
    destruct (negb (mem (astype_str str_of_num x) empty)); simpl; now rewrite IH.
  - intros sep Hall. rewrite agg_text_filter.
    replace (filter _ _) with (@nil string); [reflexivity|].
    symmetry. induction texts as [|x texts IH]; simpl; [reflexivity|].
    assert (Hx : mem (astype_str str_of_num x) empty = true)
      by (apply mem_In, Hall; now left).
    rewrite Hx. simpl. apply IH. intros y Hy. apply Hall. now right.
Qed.

(** ** Median imputation, again *)

Lemma length_insert_sorted (A : Type) (leb : A -> A -> bool) (x : A) (l : list A) :
  length (insert_sorted leb x l) = S (length l).
Proof.
  induction l as [|y l IH]; simpl; [reflexivity|].
  destruct (leb x y); simpl; [reflexivity | now rewrite IH].
Qed.

Lemma length_sort (A : Type) (leb : A -> A -> bool) (l : list A) :
  length (sort leb l) = length l.
Proof.
  induction l as [|x l IH]; simpl; [reflexivity|].
  unfold sort in *. simpl. now rewrite length_insert_sorted, IH.
Qed.

(** Only a column without a number has no median. *)
Lemma median_Q_None (l : list Q) : median_Q l = None -> l = [].
Proof.
  unfold median_Q. pose proof (length_sort Qle_bool l) as Hlen.
  set (s := sort Qle_bool l) in *. set (n := length s) in *.
  destruct (Nat.eqb n 0) eqn:E0.
  - intros _. apply Nat.eqb_eq in E0. destruct l; [reflexivity|].
    simpl in Hlen. lia.
  - apply Nat.eqb_neq in E0.
    assert (Hhalf : n / 2 < n) by (apply Nat.div_lt; lia).
    destruct (Nat.odd n).
    + intros H. apply nth_error_None in H. fold n in H. lia.
    + destruct (nth_error s (n / 2 - 1)) eqn:E1.
      * destruct (nth_error s (n / 2)) eqn:E2; [discriminate|].
        apply nth_error_None in E2. fold n in E2. lia.
      * apply nth_error_None in E1. fold n in E1. lia.
Qed.

Lemma median_cells_ok (l : list Cell) (m : Cell) :
  pd.median_cells l = Ok m ->
  existsb is_str l = false /\ is_str m = false /\
  (m = CNaN -> forall x, In x l -> num_key x = None).
Proof.
  unfold pd.median_cells. destruct (existsb is_str l) eqn:E; [discriminate|].
  destruct (median_Q _) eqn:Em; intros H; inversion H; subst.
  - repeat split. discriminate.
  - repeat split. intros _ x Hx. apply median_Q_None in Em.
    destruct (num_key x) eqn:Ex; [|reflexivity]. exfalso.
    assert (Hin : In q (flat_map (fun x => match num_key x with
                                           | Some q => [q]
                                           | None => []
                                           end) l)).
    { apply in_flat_map. exists x. split; [assumption|]. rewrite Ex. now left. }
    rewrite Em in Hin. contradiction.
Qed.

Lemma fill_fill (m m' x : Cell) :
  (m = CNaN -> m' = CNaN) -> pd.fill m' (pd.fill m x) = pd.fill m x.
Proof.
  intros H. unfold pd.fill. destruct (is_nan x) eqn:Ex.
  - destruct (is_nan m) eqn:Em; [|reflexivity].
    destruct m; try discriminate. now rewrite H.
  - now rewrite Ex.
Qed.

Lemma fill_nan_id (l : list Cell) : map (pd.fill CNaN) l = l.
Proof.
  induction l as [|x l IH]; simpl; [reflexivity|]. rewrite IH. f_equal.
  now destruct x.
Qed.

(** The selected columns of the imputed table. *)
Lemma col_values_imputed (df df' : DataFrame) (f : ColFunc) (feats : option Matrix)
    (c : string) :
  load_num_feats df f = Ok (df', feats) ->
  In c (get_matching_cols df f) ->
  pd.col_values df' c = map (pd.fill (column_median df c)) (pd.col_values df c).
Proof.
  intros H Hc. apply load_num_feats_ok in H. destruct H as [-> _].
  unfold pd.col_values. simpl. rewrite !map_map. apply map_ext. intros r. simpl.
  rewrite cell_map. assert (Hm : mem c (get_matching_cols df f) = true) by now apply mem_In.
  pose proof Hm as Hm'. rewrite get_matching_cols_subset in Hm'.
  apply andb_true_iff in Hm'. destruct Hm' as [Hcols _]. now rewrite Hcols, Hm.
Qed.

Lemma existsb_is_str_fill (m : Cell) (l : list Cell) :
  is_str m = false -> existsb is_str l = false ->
  existsb is_str (map (pd.fill m) l) = false.
Proof.
  intros Hm. induction l as [|x l IH]; simpl; [reflexivity|].
  intros H. apply orb_false_iff in H. destruct H as [Hx Hl].
  rewrite IH by assumption. rewrite orb_false_r.
  unfold pd.fill. now destruct (is_nan x).
Qed.

(** Imputing an imputed table changes nothing. *)
Lemma load_num_feats_again (df df' : DataFrame) (f : ColFunc) (feats : option Matrix) :
  (forall c, f df' c = f df c) ->
  load_num_feats df f = Ok (df', feats) ->
  load_num_feats df' f = Ok (df', feats).
Proof.
  intros Hf H.
  assert (Hcols : columns df' = columns df).
  { pose proof (load_num_feats_ok _ _ H) as [-> _]. reflexivity. }
  assert (Hnc : get_matching_cols df' f = get_matching_cols df f).
  { unfold get_matching_cols. rewrite Hcols. apply filter_ext. exact Hf. }
  assert (Hmed : forall c, In c (get_matching_cols df f) ->
            existsb is_str (pd.col_values df' c) = false /\
            (column_median df c = CNaN -> column_median df' c = CNaN)).
  { intros c Hc. pose proof (load_num_feats_numeric _ _ c H Hc) as Hm.
    apply median_cells_ok in Hm. destruct Hm as (Hstr & Hmstr & Hnan).
    rewrite (col_values_imputed _ _ c H Hc). split.
    - now apply existsb_is_str_fill.
    - intros E. unfold column_median.
      rewrite (col_values_imputed _ _ c H Hc), E, fill_nan_id. exact E. }
  destruct (load_num_feats_total df' f) as [[df'' feats''] H2].
  { intros c Hc. rewrite Hnc in Hc. now apply Hmed. }
  rewrite H2. pose proof (load_num_feats_ok _ _ H2) as [Hdf'' Hfeats''].
  pose proof (load_num_feats_ok _ _ H) as [Hdf' Hfeats'].
  rewrite Hnc, Hcols in Hdf'', Hfeats''.
  assert (Hrows : rows df' =
            map (fun r =>
                   (fst r,
                    map (fun c => if mem c (get_matching_cols df f)
                                  then pd.fill (column_median df c)
                                               (cell (columns df) (snd r) c)
                                  else cell (columns df) (snd r) c)
                        (columns df)))
                (rows df)) by (rewrite Hdf' at 1; reflexivity).
  f_equal. f_equal.
  - rewrite Hdf''.
    assert (Hd : df' = mkDataFrame (columns df) (rows df'))
      by (destruct df'; simpl in *; now subst).
    etransitivity; [|symmetry; exact Hd]. f_equal. rewrite Hrows, map_map.
    apply map_ext. intros r. simpl. f_equal. apply map_ext_in. intros c Hc.
    rewrite cell_map. replace (mem c (columns df)) with true
      by (symmetry; now apply mem_In).
    destruct (mem c (get_matching_cols df f)) eqn:E; [|reflexivity].
    apply fill_fill. apply Hmed. now apply mem_In.
  - rewrite Hfeats'', Hfeats'.
    destruct (Nat.eqb (length (get_matching_cols df f)) 0); [reflexivity|].
    f_equal. rewrite Hrows, map_map. apply map_ext. intros r. simpl.
    apply map_ext_in. intros c Hc. rewrite cell_map.
    assert (Hm : mem c (get_matching_cols df f) = true) by now apply mem_In.
    pose proof Hm as Hm'. rewrite get_matching_cols_subset in Hm'.
    apply andb_true_iff in Hm'. destruct Hm' as [Hin _]. rewrite Hin, Hm.
    apply fill_fill. now apply Hmed.
Qed.

(** X3. Imputation is idempotent: for a predicate that selects by name,
    [load_num_feats] applied to the table it has written returns the same
    table and the same matrix, and the matrix holds no missing value in a
    column that has a number. *)
Theorem load_num_feats_idempotent (df df' : DataFrame) (f : ColFunc)
    (feats : option Matrix) :
  (forall d d' c, f d c = f d' c) ->
  load_num_feats df f = Ok (df', feats) ->
  load_num_feats df' f = Ok (df', feats) /\
  forall c x, In c (get_matching_cols df f) ->
              In x (pd.col_values df' c) -> x = CNaN ->
              forall y, In y (pd.col_values df c) -> num_key y = None.
Proof.
  intros Hf H. split; [apply load_num_feats_again with (df := df); [intros; apply Hf | assumption]|].
  intros c x Hc Hx -> y Hy.
  rewrite (col_values_imputed _ _ c H Hc) in Hx. apply in_map_iff in Hx.
  destruct Hx as (x0 & Hfill & _).
  pose proof (load_num_feats_numeric _ _ c H Hc) as Hm.
  apply median_cells_ok in Hm. destruct Hm as (_ & _ & Hnan).
  apply Hnan; [|assumption]. unfold pd.fill in Hfill.
  destruct (is_nan x0) eqn:E; [assumption|]. subst x0. discriminate.
Qed.

(** ** Label selection, again *)

Lemma mapM_found (A B : Type) (g : A -> list B) (l : list A) (rs : list (list B)) :
  mapM (fun a => match g a with
                 | [] => Raise KeyError
                 | found => Ok found
                 end) l = Ok rs ->
  rs = map g l /\ forall a, In a l -> g a <> [].
Proof.
  revert rs; induction l as [|a l IH]; simpl; intros rs H.
  - inversion H. split; [reflexivity | contradiction].
  - inv_bind H. rename a0 into found, Ha into Hfound.
    inv_bind H. rename a0 into rest, Ha into Hrest.
    inversion H; subst rs. clear H.
    destruct (IH _ Hrest) as [-> Hne].
    destruct (g a) as [|b bs] eqn:E; [discriminate|]. inversion Hfound; subst found.
    split; [reflexivity|]. intros x [<-|Hx]; [rewrite E; discriminate | now apply Hne].
Qed.

(** What [.loc] returns when it returns. *)
Lemma loc_inv (df d : DataFrame) (labels : list Label) :
  pd.loc df labels = Ok d ->
  d = mkDataFrame (columns df) (flat_map (pd.rows_at df) labels) /\
  forall l, In l labels -> pd.rows_at df l <> [].
Proof.
  unfold pd.loc. intros H. inv_bind H. apply mapM_found in Ha.
  destruct Ha as [-> Hne]. inversion H. split; [|assumption].
  now rewrite flat_map_concat_map.
Qed.

Lemma rows_at_label (df : DataFrame) (l : Label) (r : Label * list Cell) :
  In r (pd.rows_at df l) -> fst r = l.
Proof.
  unfold pd.rows_at. intros H. apply filter_In in H. destruct H as [_ H].
  now apply label_eqb_eq.
Qed.

Lemma rows_at_present (df : DataFrame) (l : Label) :
  In l (index df) -> pd.rows_at df l <> [].
Proof.
  unfold index. intros H. apply in_map_iff in H. destruct H as (r & Hl & Hr).
  assert (Hin : In r (pd.rows_at df l)).
  { unfold pd.rows_at. apply filter_In. split; [assumption|]. now apply label_eqb_eq. }
  intros E. rewrite E in Hin. contradiction.
Qed.

(** [.loc] returns when every label asked for is in the index. *)
Lemma loc_total (df : DataFrame) (labels : list Label) :
  incl labels (index df) -> exists d, pd.loc df labels = Ok d.
Proof.
  intros Hincl. unfold pd.loc.
  assert (H : exists rs, mapM (fun l => match pd.rows_at df l with
                                          | [] => Raise KeyError
                                          | found => Ok found
                                          end) labels = Ok rs).
  { induction labels as [|l labels IH]; simpl; [eauto|].
    pose proof (rows_at_present df l (Hincl l (or_introl eq_refl))) as Hne.
    destruct (pd.rows_at df l) as [|r rs0]; [contradiction|]. simpl.
    destruct IH as [rs Hrs]; [intros x Hx; apply Hincl; now right|].
    rewrite Hrs. simpl. eauto. }
  destruct H as [rs Hrs]. rewrite Hrs. simpl. eauto.
Qed.

(** The labels of the rows that [.loc] returns: the labels asked for, in the
    order asked, each as often as the table carries it. *)
Lemma index_flat_map_rows_at (df : DataFrame) (labels : list Label) :
  map fst (flat_map (pd.rows_at df) labels) =
  flat_map (fun l => repeat l (length (pd.rows_at df l))) labels.
Proof.
  induction labels as [|l labels IH]; simpl; [reflexivity|].
  rewrite map_app, IH. f_equal.
  assert (H : forall rs : list (Label * list Cell),
                (forall r, In r rs -> fst r = l) ->
                map fst rs = repeat l (length rs)).
  { induction rs as [|r rs IHrs]; simpl; intros Hall; [reflexivity|].
    rewrite (Hall r (or_introl eq_refl)). f_equal. apply IHrs.
    intros x Hx. apply Hall. now right. }
  apply H. intros r. apply rows_at_label.
Qed.

Lemma prefix_append (c s : string) : String.prefix c (c ++ s) = true.
Proof.
  induction c as [|a c IH]; simpl.
  - now destruct s.
  - destruct (ascii_dec a a); [assumption | congruence].
Qed.

Lemma length_append (c s : string) :
  String.length (c ++ s) = String.length c + String.length s.
Proof. induction c as [|a c IH]; simpl; [reflexivity | now rewrite IH]. Qed.

Lemma in_ohe_columns (data' : DataFrame) (l names : list string) (n : string) :
  ohe_columns data' (SpecList l) = Ok names ->
  (In n names <->
   In n (columns data') /\
   exists old, In old l /\ String.prefix old n = true /\
               String.length old < String.length n).
Proof.
  unfold ohe_columns. intros H. inversion H; subst names. clear H.
  rewrite in_flat_map. split.
  - intros (col & Hcol & Hin). apply in_flat_map in Hin.
    destruct Hin as (old & Hold & Hin).
    destruct (String.prefix old col && Nat.ltb _ _) eqn:E; [|contradiction].
    destruct Hin as [<-|[]]. apply andb_true_iff in E. destruct E as [Hp Hl].
    apply Nat.ltb_lt in Hl. eauto.
  - intros (Hcol & old & Hold & Hp & Hl). exists n. split; [assumption|].
    apply in_flat_map. exists old. split; [assumption|].
    apply Nat.ltb_lt in Hl. rewrite Hp, Hl. now left.
Qed.

Section MoreProperties.

Variable str_of_num : Q -> string.
Variable TokOut : Type.
Variable tokenizer : list string -> option nat -> TokOut.
Variable Transformer : Type.
Variable PowerTransformer : string -> Transformer.
Variable QuantileTransformer : string -> Transformer.
Variable fit : Transformer -> Matrix -> Exc Transformer.
Variable transform : Transformer -> Matrix -> Exc (Transformer * Matrix).
Variable CategoricalFeatures : DataFrame -> ColSpec -> option string ->
                               Exc (Matrix * list string).

Local Abbreviation load_data_ :=
  (load_data str_of_num tokenizer transform CategoricalFeatures).
Local Abbreviation union_fit_ := (union_fit str_of_num CategoricalFeatures).
Local Abbreviation fit_numerical_ :=
  (fit_numerical PowerTransformer QuantileTransformer fit).
Local Abbreviation load_data_from_folder_ :=
  (load_data_from_folder str_of_num tokenizer PowerTransformer QuantileTransformer
                         fit transform CategoricalFeatures).

(** ** The union fit, again *)

Lemma length_flat_map_ge (A B : Type) (g : A -> list B) (l : list A) :
  (forall a, In a l -> 1 <= length (g a)) ->
  length l <= length (flat_map g l).
Proof.
  induction l as [|a l IH]; simpl; intros H; [lia|].
  rewrite length_app. specialize (IH (fun x Hx => H x (or_intror Hx))).
  specialize (H a (or_introl eq_refl)). lia.
Qed.

Lemma labels_kept_refl (d : DataFrame) : labels_kept d d.
Proof.
  exists (fun _ => 1). split; [auto|]. split; [|auto].
  simpl. induction (index d) as [|l ls IH]; simpl; [reflexivity | now f_equal].
Qed.

Lemma loc_labels_kept (data' d d' : DataFrame) :
  pd.loc data' (index d) = Ok d' -> labels_kept d d'.
Proof.
  intros Hl. apply loc_inv in Hl. destruct Hl as [-> Hne].
  exists (fun l => length (pd.rows_at data' l)).
  assert (Hk : forall l, In l (index d) -> 1 <= length (pd.rows_at data' l)).
  { intros l Hin. specialize (Hne l Hin).
    destruct (pd.rows_at data' l); [contradiction | simpl; lia]. }
  split; [exact Hk|]. split.
  - unfold index at 1. cbn [rows]. apply index_flat_map_rows_at.
  - cbn [rows]. replace (length (rows d)) with (length (index d))
      by (unfold index; apply length_map).
    now apply length_flat_map_ge.
Qed.

(** X4. Whatever the labels, a split never loses a row in the union block:
    the table that comes back carries the labels of the split in their
    order, each at least once; it can only hold more rows, never fewer. *)
Theorem resplit_never_drops_rows (train_df test_df train' test' : DataFrame)
    (val_df val' : option DataFrame) (cc cc' : ColSpec) (et et' : option string) :
  union_fit_ train_df val_df test_df cc et = Ok (train', val', test', cc', et') ->
  labels_kept train_df train' /\ labels_kept test_df test' /\
  match val_df, val' with
  | Some v, Some v' => labels_kept v v'
  | None, None => True
  | _, _ => False
  end.
Proof.
  intros H.
  destruct (is_encode_type et "ohe" || is_encode_type et "binary") eqn:Es.
  - apply union_fit_inv in H; [|assumption].
    destruct H as (data' & _ & Htr & Hte & Hv & _).
    split; [eapply loc_labels_kept; eassumption|].
    split; [eapply loc_labels_kept; eassumption|].
    destruct val_df as [v|].
    + destruct Hv as (v' & Hv' & ->). eapply loc_labels_kept; eassumption.
    + now subst.
  - unfold union_fit in H. rewrite Es in H. inversion H; subst.
    split; [apply labels_kept_refl|]. split; [apply labels_kept_refl|].
    destruct val'; [apply labels_kept_refl | exact I].
Qed.

Lemma union_table_columns (train_df test_df : DataFrame) (val_df : option DataFrame) :
  incl (columns train_df) (columns (union_table train_df val_df test_df)).
Proof.
  unfold union_table.
  destruct (concat_rows_agree
              (train_df :: match val_df with Some v => [v] | None => [] end ++
               [test_df])) as (al & _ & Hal).
  now destruct (Hal train_df (or_introl eq_refl)) as [H _].
Qed.

Lemma index_encode_dummies (str_of : Cell -> string) (data data' : DataFrame)
    (l : list string) :
  encode_dummies str_of data l = Ok data' -> index data' = index data.
Proof.
  intros H. apply encode_dummies_agree in H. unfold index.
  eapply Forall2_fst. eassumption.
Qed.

Lemma encode_dummies_present (str_of : Cell -> string) (data : DataFrame)
    (l : list string) :
  (forall c, In c l -> In c (columns data)) ->
  exists data', encode_dummies str_of data l = Ok data'.
Proof.
  intros H. unfold encode_dummies.
  replace (forallb (fun c => mem c (columns data)) l) with true; [eauto|].
  symmetry. apply forallb_forall. intros c Hc. now apply mem_In, H.
Qed.

Lemma encode_dummies_absent (str_of : Cell -> string) (data : DataFrame)
    (l : list string) (c : string) :
  In c l -> ~ In c (columns data) ->
  encode_dummies str_of data l = Raise KeyError.
Proof.
  intros Hc Hn. unfold encode_dummies.
  replace (forallb (fun c => mem c (columns data)) l) with false; [reflexivity|].
  symmetry. apply not_true_is_false. intros H.
  rewrite forallb_forall in H. apply Hn, mem_In, H, Hc.
Qed.

(** X5. Under the one-hot scheme [categorical_cols] has to be a list.  With
    [None], the default of [load_data_from_folder], the comprehension of
    lines 44-45 iterates over [None]: on tables that have a column the union
    block, and so the call, raises [TypeError].  A function predicate, which
    the per-split pass accepts, is refused by [get_dummies]. *)
Theorem ohe_rejects_predicates (train_df test_df : DataFrame)
    (val_df : option DataFrame) :
  columns train_df <> [] ->
  union_fit_ train_df val_df test_df SpecNone (Some "ohe") = Raise TypeError /\
  (forall text_cols label_col label_list numerical_cols sep_text_token_str
          numerical_transformer_method empty_text_values replace_empty_text
          max_token_length debug,
     load_data_from_folder_ train_df val_df test_df text_cols label_col label_list
       SpecNone numerical_cols sep_text_token_str (Some "ohe")
       numerical_transformer_method empty_text_values replace_empty_text
       max_token_length debug = Raise TypeError) /\
  (forall g,
     union_fit_ train_df val_df test_df (SpecFunction g) (Some "ohe") =
       Raise (LibraryError "get_dummies") /\
     exists f, convert_to_func (SpecFunction g) = Ok f).
Proof.
  intros Hcols.
  assert (Hu : union_fit_ train_df val_df test_df SpecNone (Some "ohe") =
               Raise TypeError).
  { unfold union_fit. cbn [is_encode_type String.eqb Ascii.eqb Bool.eqb orb].
    set (data := union_table train_df val_df test_df).
    unfold get_dummies.
    destruct (encode_dummies_present (astype_str str_of_num) data
                (filter (fun c => existsb is_str (pd.col_values data c)) (columns data)))
      as [data' Hd].
    { intros c Hc. apply filter_In in Hc. tauto. }
    rewrite Hd. cbn [bind]. unfold ohe_columns.
    destruct (columns data') eqn:E; [|reflexivity].
    exfalso. apply encode_dummies_no_columns in Hd; [|assumption].
    destruct (columns train_df) as [|c cs] eqn:Ec; [now apply Hcols|].
    pose proof (@union_table_columns train_df test_df val_df c) as Hin.
    rewrite Ec in Hin. specialize (Hin (or_introl eq_refl)).
    fold data in Hin. rewrite Hd in Hin. contradiction. }
  split; [exact Hu|]. split.
  - intros. unfold load_data_from_folder. now rewrite Hu.
  - intros g. split; [reflexivity | eexists; reflexivity].
Qed.

(** X6. Under the one-hot scheme with a list, the union block returns
    exactly when every listed name is a column of the stacked table; a name
    that is not raises [KeyError] (the per-split pass would ignore it). *)
Theorem ohe_union_fit_returns_iff (train_df test_df : DataFrame)
    (val_df : option DataFrame) (l : list string) :
  ((exists r, union_fit_ train_df val_df test_df (SpecList l) (Some "ohe") = Ok r) <->
   (forall c, In c l -> In c (columns (union_table train_df val_df test_df)))) /\
  (forall c, In c l -> ~ In c (columns (union_table train_df val_df test_df)) ->
             union_fit_ train_df val_df test_df (SpecList l) (Some "ohe") =
             Raise KeyError).
Proof.
  set (data := union_table train_df val_df test_df).
  assert (Hbad : forall c, In c l -> ~ In c (columns data) ->
            union_fit_ train_df val_df test_df (SpecList l) (Some "ohe") =
            Raise KeyError).
  { intros c Hc Hn. unfold union_fit.
    cbn [is_encode_type String.eqb Ascii.eqb Bool.eqb orb]. fold data.
    unfold get_dummies.
    erewrite encode_dummies_absent; [reflexivity | exact Hc | exact Hn]. }
  split; [|exact Hbad]. split.
  - intros [r Hr] c Hc.
    destruct (in_dec string_dec c (columns data)) as [Hin|Hn]; [assumption|].
    rewrite (Hbad c Hc Hn) in Hr. discriminate.
  - intros Hall. unfold union_fit.
    cbn [is_encode_type String.eqb Ascii.eqb Bool.eqb orb]. fold data.
    unfold get_dummies.
    destruct (encode_dummies_present (astype_str str_of_num) data l Hall)
      as [data' Hd].
    rewrite Hd. cbn [bind ohe_columns].
    pose proof (index_encode_dummies _ _ _ Hd) as Hidx.
    assert (Hloc : forall d, incl (index d) (index data) ->
                             exists d', pd.loc data' (index d) = Ok d').
    { intros d Hd'. apply loc_total. now rewrite Hidx. }
    assert (Hi : index data = index train_df ++
                   match val_df with Some v => index v | None => [] end ++
                   index test_df) by apply index_union_table.
    destruct (Hloc train_df) as [tr Htr].
    { rewrite Hi. apply incl_appl, incl_refl. }
    destruct (Hloc test_df) as [te Hte].
    { rewrite Hi. apply incl_appr, incl_appr, incl_refl. }
    rewrite Htr. cbn [bind]. destruct val_df as [v|].
    + destruct (Hloc v) as [v' Hv'].
      { rewrite Hi. apply incl_appr, incl_appl, incl_refl. }
      rewrite Hv'. cbn [bind]. rewrite Hte. cbn [bind]. eauto.
    + cbn [bind]. rewrite Hte. cbn [bind]. eauto.
Qed.

(** X7. After the one-hot union fit, the indicator columns of every encoded
    column (one per category of the union, and the one of the missing value)
    are among the categorical columns of the per-split pass; those columns
    are the columns of the returned tables whose name extends the name of an
    encoded column, whether the encoding produced them or not. *)
Theorem ohe_indicator_columns_selected (train_df test_df train' test' : DataFrame)
    (val_df val' : option DataFrame) (l : list string) (cc' : ColSpec)
    (et' : option string) :
  union_fit_ train_df val_df test_df (SpecList l) (Some "ohe") =
    Ok (train', val', test', cc', et') ->
  exists names,
    cc' = SpecList names /\
    (forall n, In n names <->
               In n (columns train') /\
               exists old, In old l /\ String.prefix old n = true /\
                           String.length old < String.length n) /\
    (forall c, In c l ->
       In (c ++ "_nan")%string names /\
       forall v, In v (levels (union_table train_df val_df test_df) c) ->
                 In (c ++ "_" ++ astype_str str_of_num v)%string names).
Proof.
  intros H. apply union_fit_inv in H; [|reflexivity].
  destruct H as (data' & Henc & Htr & _).
  cbn [is_encode_type String.eqb Ascii.eqb Bool.eqb] in Henc.
  inv_bind Henc. rename a into d1, Ha into Hd.
  inv_bind Henc. rename a into names, Ha into Hnames.
  inversion Henc; subst d1 cc'. clear Henc.
  apply loc_columns in Htr. exists names. split; [reflexivity|].
  assert (Hiff : forall n, In n names <->
               In n (columns data') /\
               exists old, In old l /\ String.prefix old n = true /\
                           String.length old < String.length n)
    by (intros n; now apply in_ohe_columns).
  split; [intros n; rewrite Htr; apply Hiff|].
  intros c Hc.
  assert (Hdummy : forall s, In (c ++ "_" ++ s)%string
                     (dummy_names (astype_str str_of_num)
                        (union_table train_df val_df test_df) c) ->
                   In (c ++ "_" ++ s)%string names).
  { intros s Hs. apply Hiff. split.
    - unfold get_dummies, encode_dummies in Hd.
      destruct (forallb _ l); [|discriminate]. inversion Hd. cbn [columns].
      apply in_or_app. right. apply in_flat_map. eauto.
    - exists c. split; [assumption|]. split; [apply prefix_append|].
      rewrite length_append. simpl. lia. }
  split.
  - apply (Hdummy "nan"). unfold dummy_names. apply in_or_app. right. now left.
  - intros v Hv. apply Hdummy. unfold dummy_names. apply in_or_app. left.
    apply in_map_iff. eauto.
Qed.

Section MoreConfig.

Variable text_cols : ColSpec.
Variable label_col : string.
Variable label_list : option (list string).
Variable numerical_cols : ColSpec.
Variable sep_text_token_str : string.
Variable empty_text_values : option (list string).
Variable replace_empty_text : option string.
Variable max_token_length : option nat.

Local Abbreviation run df cc et t debug :=
  (load_data_ df text_cols label_col label_list cc numerical_cols
              sep_text_token_str et t empty_text_values replace_empty_text
              max_token_length debug).

Local Abbreviation call train_df val_df test_df cc et method debug :=
  (load_data_from_folder_ train_df val_df test_df text_cols label_col label_list
     cc numerical_cols sep_text_token_str et method empty_text_values
     replace_empty_text max_token_length debug).

(** ** The per-split pass, again *)

Lemma head_all (n : nat) (df : DataFrame) :
  length (rows df) <= n -> pd.head n df = df.
Proof.
  intros H. unfold pd.head. rewrite firstn_all2 by assumption. now destruct df.
Qed.

Lemma load_data_debug_small (df : DataFrame) (cc : ColSpec) (et : option string)
    (t : option Transformer) :
  length (rows df) <= 50 -> run df cc et t true = run df cc et t false.
Proof.
  intros H. change (run df cc et t true) with (run (pd.head 50 df) cc et t false).
  now rewrite head_all.
Qed.

(** X8. Debug mode changes nothing on small tables: a per-split pass over a
    table of at most 50 rows gives the same result with and without [debug],
    and so does the whole call when the tables that leave the union block
    have at most 50 rows. *)
Theorem debug_noop_small_tables (train_df test_df train1 test1 : DataFrame)
    (val_df val1 : option DataFrame) (cc cc1 : ColSpec) (et et1 : option string)
    (method : string) :
  union_fit_ train_df val_df test_df cc et = Ok (train1, val1, test1, cc1, et1) ->
  length (rows train1) <= 50 ->
  length (rows test1) <= 50 ->
  (forall v, val1 = Some v -> length (rows v) <= 50) ->
  (forall t, run train1 cc1 et1 t true = run train1 cc1 et1 t false) /\
  call train_df val_df test_df cc et method true =
  call train_df val_df test_df cc et method false.
Proof.
  intros Hu Htr Hte Hv. split; [intros t; now apply load_data_debug_small|].
  unfold load_data_from_folder. rewrite Hu. cbn [bind].
  destruct (fit_numerical_ train1 numerical_cols method) as [[train2 t0]|e] eqn:Hfit;
    cbn [bind]; [|reflexivity].
  apply fit_numerical_rows in Hfit; try assumption. cbv zeta.
  rewrite (load_data_debug_small train2 cc1 et1 t0) by lia.
  destruct (run train2 cc1 et1 t0 false) as [[t1 d1]|e]; cbn [bind]; [|reflexivity].
  rewrite (load_data_debug_small test1 cc1 et1 t1) by lia.
  destruct (run test1 cc1 et1 t1 false) as [[t2 d2]|e]; cbn [bind]; [|reflexivity].
  destruct val1 as [v|]; [|reflexivity].
  rewrite (load_data_debug_small v cc1 et1 t2) by (now apply Hv).
  reflexivity.
Qed.

(** X9. A feature family without a column is absent from the bundle: when
    the categorical spec selects no column of the table the categorical
    features are [None] and [CategoricalFeatures] is not consulted, and when
    the numerical spec selects none the numerical features are [None] and
    the transformer comes back as it was given, [transform] not being
    called. *)
Theorem absent_feature_families (df : DataFrame) (cc : ColSpec)
    (et : option string) (t t' : option Transformer) (debug : bool)
    (ds : TorchTextDataset TokOut) :
  run df cc et t debug = Ok (t', ds) ->
  (forall cf, convert_to_func cc = Ok cf ->
     get_matching_cols (if debug then pd.head 50 df else df) cf = [] ->
     ds_cat_feats ds = None) /\
  (forall nf, convert_to_func numerical_cols = Ok nf ->
     get_matching_cols (if debug then pd.head 50 df else df) nf = [] ->
     ds_numerical_feats ds = None /\ t' = t) /\
  (cc = SpecNone -> ds_cat_feats ds = None) /\
  (numerical_cols = SpecNone -> ds_numerical_feats ds = None /\ t' = t).
Proof.
  intros H. apply load_data_inv in H.
  destruct H as (tf & cf & nf & cat & num & _ & Hcf & Hnf & Hcat & Hnum & Hnorm &
                 Hds & _).
  assert (Hc : forall cf0, convert_to_func cc = Ok cf0 ->
     get_matching_cols (if debug then pd.head 50 df else df) cf0 = [] ->
     ds_cat_feats ds = None).
  { intros cf0 E Hnil. rewrite Hcf in E. inversion E; subst cf0.
    unfold load_cat_feats in Hcat. rewrite Hnil in Hcat. simpl in Hcat.
    inversion Hcat. congruence. }
  assert (Hn : forall nf0, convert_to_func numerical_cols = Ok nf0 ->
     get_matching_cols (if debug then pd.head 50 df else df) nf0 = [] ->
     ds_numerical_feats ds = None /\ t' = t).
  { intros nf0 E Hnil. rewrite Hnf in E. inversion E; subst nf0.
    apply load_num_feats_ok in Hnum. destruct Hnum as [_ Hnum].
    rewrite Hnil in Hnum. simpl in Hnum. subst num.
    unfold normalize_numerical_feats in Hnorm. inversion Hnorm. auto. }
  split; [exact Hc|]. split; [exact Hn|]. split.
  - intros ->. apply (Hc (fun _ _ => false)); [reflexivity|].
    apply get_matching_cols_none.
  - intros E. apply (Hn (fun _ _ => false)); [now rewrite E|].
    apply get_matching_cols_none.
Qed.

Lemma agg_rows_ok (func : list Cell -> list string) (sub : DataFrame)
    (texts : list (list string)) :
  agg_rows func sub = Ok texts -> texts <> [] ->
  texts = map (fun r => func (snd r)) (rows sub).
Proof.
  unfold agg_rows. destruct (rows sub) as [|r rs].
  - intros H Hne. inversion H. congruence.
  - destruct (columns sub); [discriminate|]. intros H _. now inversion H.
Qed.

(** X10. The bundle is aligned with its table, row by row: the tokenizer is
    called once, on one text per row of the table, each the join of the
    aggregated text columns of that row (in the column order of the table),
    and the labels are the cells of the label column, one per row. *)
Theorem bundle_rows_aligned (df : DataFrame) (cc : ColSpec)
    (et : option string) (t t' : option Transformer) (debug : bool)
    (ds : TorchTextDataset TokOut) :
  run df cc et t debug = Ok (t', ds) ->
  exists tf,
    convert_to_func text_cols = Ok tf /\
    ds_encodings ds =
      tokenizer
        (map (fun r =>
                join_text sep_text_token_str
                  (agg_text_columns_func str_of_num
                     (match empty_text_values with
                      | None => ["nan"; "None"]
                      | Some l => l
                      end)
                     replace_empty_text
                     (map (cell (columns (ds_df ds)) (snd r))
                          (get_matching_cols (ds_df ds) tf))))
             (rows (ds_df ds)))
        max_token_length /\
    ds_labels ds =
      map (fun r => cell (columns (ds_df ds)) (snd r) label_col) (rows (ds_df ds)) /\
    index (ds_df ds) = index (if debug then pd.head 50 df else df).
Proof.
  intros H. pose proof H as Hinv. apply load_data_inv in Hinv.
  destruct Hinv as (tf0 & cf0 & nf0 & cat0 & num0 & _ & _ & _ & _ & Hnum0 & _).
  apply load_num_feats_cells in Hnum0. destruct Hnum0 as (_ & Hidx & _).
  unfold load_data in H.
  inv_bind H. rename a into tf, Ha into Htf.
  inv_bind H. rename a into cf, Ha into Hcf.
  inv_bind H. rename a into nf, Ha into Hnf.
  inv_bind H. destruct a as [[df1 cat] num]. rename Ha into Hfeats.
  inv_bind H. destruct a as [t1 num1]. rename Ha into Hnorm.
  inv_bind H. rename a into sub, Ha into Hsub.
  inv_bind H. rename a into texts, Ha into Hagg.
  inv_bind H. rename Ha into Hex.
  inv_bind H. rename a0 into labels, Ha into Hlab.
  inversion H; subst t' ds. clear H. cbn [ds_df ds_encodings ds_labels] in *.
  exists tf. split; [assumption|]. split; [|split; [|assumption]].
  - f_equal. rewrite getitem_matching in Hsub. inversion Hsub; subst sub. clear Hsub.
    apply agg_rows_ok in Hagg.
    + rewrite Hagg. cbn [rows]. rewrite !map_map. reflexivity.
    + intros E. rewrite E in Hex. simpl in Hex. discriminate.
  - unfold pd.getitem_col in Hlab. destruct (mem label_col (columns df1)); [|discriminate].
    now inversion Hlab.
Qed.

(** X11. A label column that the table does not have makes the per-split
    pass raise: it never returns a bundle without labels. *)
Theorem missing_label_column_fails (df : DataFrame) (cc : ColSpec)
    (et : option string) (t : option Transformer) (debug : bool) :
  ~ In label_col (columns df) ->
  exists e, run df cc et t debug = Raise e.
Proof.
  intros Hn. destruct (run df cc et t debug) as [[t' ds]|e] eqn:E; [|eauto].
  exfalso. apply load_data_inv in E.
  destruct E as (tf & cf & nf & cat & num & _ & _ & _ & _ & Hnum & _ & _ & Hlab & _).
  apply load_num_feats_cells in Hnum. destruct Hnum as (Hcols & _).
  unfold pd.getitem_col in Hlab. destruct (mem label_col (columns (ds_df ds))) eqn:Em;
    [|discriminate].
  apply mem_In in Em. rewrite Hcols in Em. apply Hn. now destruct debug.
Qed.

(** X12. Without a transformer the numerical features of the bundle are the
    imputed columns themselves: the selected columns of the table, every
    missing value replaced by the median of its column in that table. *)
Theorem untransformed_features_are_imputed_columns (df : DataFrame) (cc : ColSpec)
    (et : option string) (t' : option Transformer) (debug : bool)
    (ds : TorchTextDataset TokOut) :
  run df cc et None debug = Ok (t', ds) ->
  let df0 := if debug then pd.head 50 df else df in
  t' = None /\
  exists nf,
    convert_to_func numerical_cols = Ok nf /\
    ds_numerical_feats ds =
      if Nat.eqb (length (get_matching_cols df0 nf)) 0 then None
      else Some (map (fun r =>
                        map (fun c => pd.fill (column_median df0 c)
                                              (cell (columns df0) (snd r) c))
                            (get_matching_cols df0 nf))
                     (rows df0)).
Proof.
  intros H df0. apply load_data_inv in H.
  destruct H as (tf & cf & nf & cat & num & _ & _ & Hnf & _ & Hnum & Hnorm & _).
  apply load_num_feats_ok in Hnum. destruct Hnum as [_ Hnum].
  unfold normalize_numerical_feats in Hnorm.
  assert (E : Ok (None, num) = Ok (t', ds_numerical_feats ds))
    by (destruct num; exact Hnorm).
  inversion E. split; [reflexivity|]. exists nf. split; [assumption|].
  fold df0 in Hnum. now rewrite <- Hnum.
Qed.

(** ** The numerical fit, again *)

(** X13. In a call without [debug], the training bundle holds the transform
    of exactly the matrix the transformer was fitted on: the per-split pass
    imputes the training table a second time, which changes nothing, and its
    table is the one that left the fit.  (For a numerical spec that selects
    by name.) *)
Theorem train_features_transform_fit_matrix (train1 train2 : DataFrame)
    (cc : ColSpec) (et : option string) (method : string) (fitted : Transformer)
    (t' : option Transformer) (ds : TorchTextDataset TokOut) :
  (forall nf, convert_to_func numerical_cols = Ok nf ->
              forall d d' c, nf d c = nf d' c) ->
  fit_numerical_ train1 numerical_cols method = Ok (train2, Some fitted) ->
  run train2 cc et (Some fitted) false = Ok (t', ds) ->
  exists unfitted feats t'' m',
    fit unfitted feats = Ok fitted /\
    transform fitted feats = Ok (t'', m') /\
    ds_numerical_feats ds = Some m' /\
    t' = Some t'' /\
    ds_df ds = train2.
Proof.
  intros Hname Hfit Hrun. apply fit_numerical_inv in Hfit; try assumption.
  destruct Hfit as [_ (unfitted & nf & feats & Hnf & Hnum & Hfitted)].
  apply load_data_inv in Hrun.
  destruct Hrun as (tf & cf & nf' & cat & num & _ & _ & Hnf' & _ & Hnum' & Hnorm & _).
  rewrite Hnf in Hnf'. inversion Hnf'; subst nf'. clear Hnf'.
  assert (Hagain : load_num_feats train2 nf = Ok (train2, Some feats)).
  { apply load_num_feats_again with (df := train1); [|assumption].
    intros c. now apply Hname. }
  rewrite Hagain in Hnum'. inversion Hnum' as [[Hdf Hfeats]]. subst num. clear Hnum'.
  unfold normalize_numerical_feats in Hnorm.
  inv_bind Hnorm. destruct a as [t'' m']. inversion Hnorm as [[Ht Hm]].
  exists unfitted, feats, t'', m'. auto.
Qed.

(** X14. How the numerical fit fails.  A method other than the four known
    ones raises [ValueError], whatever the table.  With a transformer
    requested and no numerical column selected in the training table, [fit]
    is given [None] and the block raises; so does every call that asks for a
    transformer and leaves [numerical_cols] at [None]. *)
Theorem numerical_fit_failures (method : string) :
  method <> "none" ->
  (method <> "yeo_johnson" -> method <> "box_cox" -> method <> "quantile_normal" ->
   forall train_df, fit_numerical_ train_df numerical_cols method = Raise ValueError) /\
  (forall train_df nf,
     convert_to_func numerical_cols = Ok nf ->
     get_matching_cols train_df nf = [] ->
     exists e, fit_numerical_ train_df numerical_cols method = Raise e) /\
  (numerical_cols = SpecNone ->
   forall train_df val_df test_df cc et debug,
     exists e, call train_df val_df test_df cc et method debug = Raise e).
Proof.
  intros Hnone.
  assert (E0 : String.eqb method "none" = false) by now apply String.eqb_neq.
  assert (Hb : forall train_df nf,
     convert_to_func numerical_cols = Ok nf ->
     get_matching_cols train_df nf = [] ->
     exists e, fit_numerical_ train_df numerical_cols method = Raise e).
  { intros train_df nf Hnf Hnil. unfold fit_numerical. rewrite E0. cbn [negb].
    match goal with
    | |- exists e, bind ?m _ = _ => destruct m as [unfitted|e]; cbn [bind]; [|eauto]
    end.
    rewrite Hnf. cbn [bind].
    destruct (load_num_feats_total train_df nf) as [[df' feats] Hl].
    { rewrite Hnil. intros c []. }
    rewrite Hl. cbn [bind]. apply load_num_feats_ok in Hl.
    destruct Hl as [_ ->]. rewrite Hnil. simpl. eauto. }
  split; [|split; [exact Hb|]].
  - intros H1 H2 H3 train_df. unfold fit_numerical. rewrite E0. cbn [negb].
    apply String.eqb_neq in H1, H2, H3. now rewrite H1, H2, H3.
  - intros Hspec train_df val_df test_df cc et debug.
    unfold load_data_from_folder.
    destruct (union_fit_ train_df val_df test_df cc et)
      as [[[[[train1 val1] test1] cc1] et1]|e]; cbn [bind]; [|eauto].
    destruct (Hb train1 (fun _ _ => false)) as [e He].
    + now rewrite Hspec.
    + apply get_matching_cols_none.
    + rewrite He. cbn [bind]. eauto.
Qed.

End MoreConfig.

End MoreProperties.

(** ** Worked runs of the further properties *)

(** A run of X1: a spec that names a column the table does not have. *)
Lemma spec_names_select_present_columns_witness :
  exists f,
    convert_to_func (SpecList ["num"; "ghost"]) = Ok f /\
    get_matching_cols demo_train f = ["num"] /\
    exists f', convert_to_func (SpecSet ["ghost"; "num"; "num"]) = Ok f' /\
               get_matching_cols demo_train f' = ["num"].
Proof.
  destruct (@spec_names_select_present_columns
              ["num"; "ghost"] ["ghost"; "num"; "num"] demo_train)
    as (f & f' & Hf & Hf' & _ & Hsame).
  - intros c. simpl. tauto.
  - exists f. split; [exact Hf|].
    assert (Hcols : get_matching_cols demo_train f = ["num"])
      by (simpl in Hf; inversion Hf; reflexivity).
    split; [exact Hcols|]. exists f'. split; [exact Hf'|]. now rewrite Hsame.
Defined.

(** A run of X2: a row of two missing texts. *)
Lemma agg_text_survivors_witness :
  join_text "|" (agg_text_columns_func demo_str_of_num ["nan"; "None"] None
                                       [CNaN; CStr "None"]) = "".
Proof.
  apply (proj2 (proj2 (proj2 (agg_text_survivors demo_str_of_num ["nan"; "None"]
                                                 [CNaN; CStr "None"])))).
  intros x [<-|[<-|[]]]; simpl; auto.
Defined.

(** A run of X3. *)
Lemma load_num_feats_idempotent_witness :
  match load_num_feats demo_train (fun _ c => String.eqb c "num") with
  | Ok (df', feats) =>
      load_num_feats df' (fun _ c => String.eqb c "num") = Ok (df', feats)
  | Raise _ => False
  end.
Proof.
  destruct (load_num_feats demo_train (fun _ c => String.eqb c "num"))
    as [[df' feats]|e] eqn:E.
  - apply load_num_feats_idempotent in E; [exact (proj1 E) | reflexivity].
  - vm_compute in E. discriminate.
Defined.

(** A run of X4: the test file numbers its rows from 0 again. *)
Lemma resplit_never_drops_rows_witness :
  match demo_union_fit demo_train None demo_test_from_0
                       (SpecList ["cat"]) (Some "ohe") with
  | Ok (train', _, test', _, _) =>
      labels_kept demo_train train' /\ labels_kept demo_test_from_0 test'
  | Raise _ => False
  end.
Proof.
  destruct (demo_union_fit demo_train None demo_test_from_0
                           (SpecList ["cat"]) (Some "ohe"))
    as [[[[[train' val'] test'] cc'] et']|e] eqn:E.
  - apply resplit_never_drops_rows in E. destruct E as (H1 & H2 & _).
    split; [exact H1 | exact H2].
  - vm_compute in E. discriminate.
Defined.

(** A run of X5: the default categorical arguments. *)
Lemma ohe_rejects_predicates_witness :
  demo_union_fit demo_train None demo_test SpecNone (Some "ohe") = Raise TypeError.
Proof.
  apply (proj1 (@ohe_rejects_predicates demo_str_of_num _ demo_tokenizer _ demo_new
                  demo_new demo_fit demo_transform passthrough_features
                  demo_train demo_test None ltac:(discriminate))).
Defined.

(** A run of X6: a categorical column that the tables do not have. *)
Lemma ohe_union_fit_returns_iff_witness :
  demo_union_fit demo_train None demo_test (SpecList ["ghost"]) (Some "ohe")
  = Raise KeyError.
Proof.
  apply (proj2 (ohe_union_fit_returns_iff demo_str_of_num passthrough_features
                  demo_train demo_test None ["ghost"]) "ghost").
  - now left.
  - intros H. apply mem_In in H. vm_compute in H. discriminate.
Defined.

(** A run of X7. *)
Lemma ohe_indicator_columns_selected_witness :
  match demo_union_fit demo_train None demo_test (SpecList ["cat"]) (Some "ohe") with
  | Ok (_, _, _, cc', _) =>
      exists names, cc' = SpecList names /\ In "cat_nan" names /\ In "cat_x" names
  | Raise _ => False
  end.
Proof.
  destruct (demo_union_fit demo_train None demo_test (SpecList ["cat"]) (Some "ohe"))
    as [[[[[train' val'] test'] cc'] et']|e] eqn:E.
  - apply ohe_indicator_columns_selected in E.
    destruct E as (names & Hcc & _ & Hdummy).
    exists names. split; [exact Hcc|].
    destruct (Hdummy "cat" (or_introl eq_refl)) as [Hnan Hlev].
    split; [exact Hnan|]. apply (Hlev (CStr "x")). vm_compute. auto 10.
  - vm_compute in E. discriminate.
Defined.

(** A run of X8: three small tables. *)
Lemma debug_noop_small_tables_witness :
  demo_call demo_train (Some demo_val) demo_test true =
  demo_call demo_train (Some demo_val) demo_test false.
Proof.
  eassert (Hu : demo_union_fit demo_train (Some demo_val) demo_test
                               (SpecList ["cat"]) (Some "ohe") = Ok (_, _, _, _, _))
    by (vm_compute; reflexivity).
  eapply debug_noop_small_tables in Hu.
  - exact (proj2 Hu).
  - simpl. lia.
  - simpl. lia.
  - intros v E. inversion E. simpl. lia.
Defined.

(** A run of X9: no categorical spec. *)
Lemma absent_feature_families_witness :
  match demo_run demo_train SpecNone None None false with
  | Ok (_, ds) => ds_cat_feats ds = None
  | Raise _ => False
  end.
Proof.
  destruct (demo_run demo_train SpecNone None None false) as [[t' ds]|e] eqn:E.
  - apply absent_feature_families in E.
    destruct E as (_ & _ & Hcat & _). now apply Hcat.
  - vm_compute in E. discriminate.
Defined.

(** A run of X10: the third row has no text. *)
Lemma bundle_rows_aligned_witness :
  match demo_run demo_train (SpecList ["cat"]) None None false with
  | Ok (_, ds) =>
      ds_encodings ds = ["good"; "bad"; ""] /\
      ds_labels ds = [CNum 0; CNum 1; CNum 1]
  | Raise _ => False
  end.
Proof.
  destruct (demo_run demo_train (SpecList ["cat"]) None None false)
    as [[t' ds]|e] eqn:E.
  - pose proof E as E'. apply bundle_rows_aligned in E'.
    destruct E' as (tf & Htf & Henc & Hlab & _).
    simpl in Htf. inversion Htf; subst tf. clear Htf.
    vm_compute in E. inversion E; subst. clear E.
    split; [etransitivity; [exact Henc | reflexivity]
           | etransitivity; [exact Hlab | reflexivity]].
  - vm_compute in E. discriminate.
Defined.

(** A run of X11: a label column that is not there. *)
Lemma missing_label_column_fails_witness :
  exists e,
    demo_load_data demo_train (SpecList ["text"]) "ghost" None (SpecList ["cat"])
                   (SpecList ["num"]) "|" None None None None None false = Raise e.
Proof.
  apply missing_label_column_fails.
  intros H. apply mem_In in H. vm_compute in H. discriminate.
Defined.

(** A run of X12. *)
Lemma untransformed_features_are_imputed_columns_witness :
  match demo_run demo_train SpecNone None None false with
  | Ok (t', ds) =>
      t' = None /\
      ds_numerical_feats ds = Some [[CNum 1]; [CNum (5 # 2)]; [CNum 4]]
  | Raise _ => False
  end.
Proof.
  destruct (demo_run demo_train SpecNone None None false) as [[t' ds]|e] eqn:E.
  - apply untransformed_features_are_imputed_columns in E.
    destruct E as (Ht & nf & Hnf & Hfeats). split; [exact Ht|].
    simpl in Hnf. inversion Hnf; subst nf. rewrite Hfeats. reflexivity.
  - vm_compute in E. discriminate.
Defined.

(** A run of X13. *)
Lemma train_features_transform_fit_matrix_witness :
  exists train2 fitted t' ds,
    demo_fit_numerical demo_train (SpecList ["num"]) "quantile_normal" =
      Ok (train2, Some fitted) /\
    demo_run train2 SpecNone None (Some fitted) false = Ok (t', ds) /\
    exists unfitted feats t'' m',
      demo_fit unfitted feats = Ok fitted /\
      demo_transform fitted feats = Ok (t'', m') /\
      ds_numerical_feats ds = Some m'.
Proof.
  eassert (Hfit : demo_fit_numerical demo_train (SpecList ["num"]) "quantile_normal"
                  = Ok (_, Some _)) by (vm_compute; reflexivity).
  match type of Hfit with
  | _ = Ok (?train2, Some ?fitted) =>
      eassert (Hrun : demo_run train2 SpecNone None (Some fitted) false = Ok (_, _))
        by (vm_compute; reflexivity)
  end.
  do 4 eexists. split; [exact Hfit|]. split; [exact Hrun|].
  pose proof Hrun as Hall.
  eapply train_features_transform_fit_matrix in Hall;
    [ | intros nf Hnf d d' c; simpl in Hnf; inversion Hnf; reflexivity | exact Hfit ].
  destruct Hall as (unfitted & feats & t'' & m' & H1 & H2 & H3 & _).
  exists unfitted, feats, t'', m'. auto.
Defined.

(** A run of X14: a transformer is asked for and [numerical_cols] is left
    at [None]. *)
Lemma numerical_fit_failures_witness :
  exists e,
    demo_load_data_from_folder demo_train None demo_test (SpecList ["text"]) "y"
      None (SpecList ["cat"]) SpecNone "|" (Some "ohe") "quantile_normal"
      None None None false = Raise e.
Proof.
  exact (proj2 (proj2 (@numerical_fit_failures demo_str_of_num _ demo_tokenizer _
                         demo_new demo_new demo_fit demo_transform
                         passthrough_features (SpecList ["text"]) "y" None SpecNone
                         "|" None None None "quantile_normal" ltac:(discriminate)))
               eq_refl demo_train None demo_test (SpecList ["cat"]) (Some "ohe")
               false).
Defined.
